(** * DORA Analyzer: the submission store, the score aggregator and the
      report rows, embedded from the React components.

    The development follows the sources:
    - [App] (the top of the view tree): the session state and its handlers
      [handleFormSubmit], [handleUpdateForm], [handleDeleteForm];
    - [SavedForms] and [Report]: [handleSaveChanges], [generateChartData]
      and the table rows built by [generatePDF].

    JavaScript numbers that the program only ever uses as integers (ids,
    option values) are [Z]; the one division of the program is modelled by
    [js_div] below.  Strings are [string]; the two localized variants of a
    text are a record. *)

From Stdlib Require Import ZArith QArith List String Ascii Bool Lia.
From stdpp Require Import base option list gmap strings.

Local Open Scope string_scope.
Local Open Scope Z_scope.

(** ** Data model *)

Inductive Language := es | pt.

(** An object [{ es: ..., pt: ... }] indexed by the language. *)
Record LocalText := { text_es : string; text_pt : string }.

Definition localized (t : LocalText) (language : Language) : string :=
  match language with es => text_es t | pt => text_pt t end.

(** Modelled from the spec: the declarations of [Category], [Question],
    [FormDataType] and [Draft] (module [types]) are not among the sources.
    The fields are the ones the components read, with the types the
    specification's data model gives them. *)
Record Category := { cat_id : Z; cat_name : LocalText }.

Record AnswerOption := { value : Z; opt_text : LocalText }.

Record Question := {
  id : Z;
  categoryId : Z;
  text : LocalText;
  options : list AnswerOption
}.

Record FormDataType := {
  providerName : string;
  financialEntityName : string;
  userName : string;
  date : string;
  answers : gmap Z Z;
  observations : gmap Z string
}.

Definition Draft := FormDataType.

(** The five views, ['home' | 'form' | 'report' | 'savedForms' | 'drafts']. *)
Inductive View := home_view | form_view | report_view | savedForms_view | drafts_view.

(** ** The session state of [App]: one field per [useState] slot. *)
Record AppState := {
  currentView : View;
  language : Language;
  formData : list FormDataType;
  draftList : list Draft;
  app_userName : string;
  app_providerName : string;
  app_financialEntityName : string;
  currentDraft : option Draft
}.

Definition setFormData (fd : list FormDataType) (st : AppState) : AppState :=
  {| currentView := currentView st; language := language st;
     formData := fd; draftList := draftList st;
     app_userName := app_userName st;
     app_providerName := app_providerName st;
     app_financialEntityName := app_financialEntityName st;
     currentDraft := currentDraft st |}.

Definition setCurrentView (v : View) (st : AppState) : AppState :=
  {| currentView := v; language := language st;
     formData := formData st; draftList := draftList st;
     app_userName := app_userName st;
     app_providerName := app_providerName st;
     app_financialEntityName := app_financialEntityName st;
     currentDraft := currentDraft st |}.

Definition setDrafts (ds : list Draft) (st : AppState) : AppState :=
  {| currentView := currentView st; language := language st;
     formData := formData st; draftList := ds;
     app_userName := app_userName st;
     app_providerName := app_providerName st;
     app_financialEntityName := app_financialEntityName st;
     currentDraft := currentDraft st |}.

(** ** The store operations of [App] *)

(** [formData.map(form => form.date === updatedForm.date ? updatedForm : form)] *)
Definition updateSubmission (updatedForm : FormDataType)
    (fd : list FormDataType) : list FormDataType :=
  List.map (fun form => if String.eqb (date form) (date updatedForm)
                        then updatedForm else form) fd.

(** [formData.filter(form => form.date !== dateToDelete)] *)
Definition deleteSubmission (dateToDelete : string)
    (fd : list FormDataType) : list FormDataType :=
  List.filter (fun form => negb (String.eqb (date form) dateToDelete)) fd.

(** [[...formData, data]] *)
Definition addSubmission (data : FormDataType)
    (fd : list FormDataType) : list FormDataType :=
  fd ++ [data].

Definition handleUpdateForm (updatedForm : FormDataType) (st : AppState) : AppState :=
  setFormData (updateSubmission updatedForm (formData st)) st.

Definition handleDeleteForm (dateToDelete : string) (st : AppState) : AppState :=
  setFormData (deleteSubmission dateToDelete (formData st)) st.

Definition handleDeleteDraft (d : string) (st : AppState) : AppState :=
  setDrafts (List.filter (fun draft => negb (String.eqb (date draft) d)) (draftList st)) st.

Definition handleSaveDraft (draft : Draft) (st : AppState) : AppState :=
  setCurrentView drafts_view (setDrafts (draftList st ++ [draft]) st).

(** ** The component state of [SavedForms] *)

Record SavedFormsState := {
  selectedFormIndex : option nat;
  editedAnswers : gmap Z Z;
  editedObservations : gmap Z string;
  isEditing : bool
}.

Definition setIsEditing (b : bool) (sf : SavedFormsState) : SavedFormsState :=
  {| selectedFormIndex := selectedFormIndex sf;
     editedAnswers := editedAnswers sf;
     editedObservations := editedObservations sf;
     isEditing := b |}.

(** [{ ...editedAnswers, [questionId]: value }] *)
Definition handleAnswerChange (questionId v : Z) (sf : SavedFormsState) : SavedFormsState :=
  {| selectedFormIndex := selectedFormIndex sf;
     editedAnswers := <[questionId := v]> (editedAnswers sf);
     editedObservations := editedObservations sf;
     isEditing := isEditing sf |}.

Definition handleObservationChange (questionId : Z) (v : string)
    (sf : SavedFormsState) : SavedFormsState :=
  {| selectedFormIndex := selectedFormIndex sf;
     editedAnswers := editedAnswers sf;
     editedObservations := <[questionId := v]> (editedObservations sf);
     isEditing := isEditing sf |}.

(** [{ ...formData[selectedFormIndex], answers: editedAnswers,
       observations: editedObservations }] *)
Definition withEdits (f : FormDataType) (sf : SavedFormsState) : FormDataType :=
  {| providerName := providerName f;
     financialEntityName := financialEntityName f;
     userName := userName f;
     date := date f;
     answers := editedAnswers sf;
     observations := editedObservations sf |}.

(** [handleSaveChanges]: with a selected index, the selected submission is
    copied with the edited answer and observation sets and handed to
    [onUpdateForm] (which is [handleUpdateForm] of [App]).  When the index
    is past the end of the list, the spread of [undefined] yields an object
    with no [date]; no stored date is [=== undefined], so the map of
    [handleUpdateForm] keeps every element. *)
Definition handleSaveChanges (sf : SavedFormsState) (st : AppState)
    : SavedFormsState * AppState :=
  match selectedFormIndex sf with
  | Some i =>
      match formData st !! i with
      | Some f => (setIsEditing false sf, handleUpdateForm (withEdits f sf) st)
      | None => (setIsEditing false sf, setFormData (formData st) st)
      end
  | None => (sf, st)
  end.

(** ** The score aggregator: [generateChartData] *)

(** The result of a JavaScript division.  The quotient of two integers
    with a non-zero divisor is kept as the exact rational (the rounding to
    a double is not modelled); a zero divisor gives [NaN] for [0 / 0] and
    a signed [Infinity] otherwise. *)
Inductive jsnum :=
  | JNum (q : Q)
  | JInfinity (negative : bool)
  | JNaN.

Definition js_div (x : Z) (n : nat) : jsnum :=
  match n with
  | O => if x =? 0 then JNaN else JInfinity (x <? 0)
  | S _ => JNum (x # Pos.of_nat n)
  end.

(** [v || 0] on a number that may be [undefined]. *)
Definition or_zero (v : option Z) : Z :=
  match v with
  | Some x => if x =? 0 then 0 else x
  | None => 0
  end.

Definition categoryQuestions (questions : list Question) (category : Category)
    : list Question :=
  List.filter (fun q => categoryId q =? cat_id category) questions.

Definition categoryScores (selectedData : FormDataType) (qs : list Question) : list Z :=
  List.map (fun q => or_zero (answers selectedData !! id q)) qs.

(** [categoryScores.reduce((sum, score) => sum + score, 0) / categoryScores.length] *)
Definition average (scores : list Z) : jsnum :=
  js_div (fold_left (fun sum score => sum + score) scores 0) (length scores).

Definition categoryScore (questions : list Question) (selectedData : FormDataType)
    (category : Category) : jsnum :=
  average (categoryScores selectedData (categoryQuestions questions category)).

Record ChartData := {
  labels : list string;
  dataset_label : string;
  data : list jsnum
}.

Definition generateChartData (questions : list Question) (categories : list Category)
    (lang : Language) (selectedData : FormDataType) : ChartData :=
  {| labels := List.map (fun category => localized (cat_name category) lang) categories;
     dataset_label := match lang with es => "Puntuación" | pt => "Pontuação" end;
     data := List.map (categoryScore questions selectedData) categories |}.

(** ** [String.prototype.replace] with a string pattern

    ECMAScript: the first occurrence of the pattern is located
    ([StringIndexOf] from position 0); with no occurrence the string is
    returned as it is; otherwise the text before the match, the
    expansion of the replacement template ([GetSubstitution]) and the text
    after the match are concatenated.  Only the first occurrence is
    replaced. *)
Module JsString.

(** [strip_prefix pat s] is the rest of [s] after [pat] when [s] starts
    with [pat]. *)
Fixpoint strip_prefix (pat s : string) : option string :=
  match pat with
  | EmptyString => Some s
  | String a pat' =>
      match s with
      | EmptyString => None
      | String b s' => if Ascii.eqb a b then strip_prefix pat' s' else None
      end
  end.

(** The text before and after the first occurrence of [pat] in [s]. *)
Fixpoint split_at_first (pat s : string) : option (string * string) :=
  match strip_prefix pat s with
  | Some rest => Some (EmptyString, rest)
  | None =>
      match s with
      | EmptyString => None
      | String c s' =>
          match split_at_first pat s' with
          | Some (before, after) => Some (String c before, after)
          | None => None
          end
      end
  end.

(** [GetSubstitution] for a pattern without capture groups: [$$] is a
    dollar sign, [$&] the matched text, [$`] the text before the match,
    [$'] the text after it; any other [$] stands for itself. *)
Fixpoint getSubstitution (matched before after template : string) : string :=
  match template with
  | EmptyString => EmptyString
  | String c rest =>
      if Ascii.eqb c "$" then
        match rest with
        | EmptyString => String c EmptyString
        | String d rest' =>
            if Ascii.eqb d "$" then
              String "$" (getSubstitution matched before after rest')
            else if Ascii.eqb d "&" then
              matched +:+ getSubstitution matched before after rest'
            else if Ascii.eqb d "`" then
              before +:+ getSubstitution matched before after rest'
            else if Ascii.eqb d "'" then
              after +:+ getSubstitution matched before after rest'
            else String c (String d (getSubstitution matched before after rest'))
        end
      else String c (getSubstitution matched before after rest)
  end.

(** [s.replace(pat, replacement)] *)
Definition replace (s pat replacement : string) : string :=
  match split_at_first pat s with
  | None => s
  | Some (before, after) =>
      before +:+ getSubstitution pat before after replacement +:+ after
  end.

(** [s.includes(pat)] *)
Definition includes (s pat : string) : bool :=
  match split_at_first pat s with Some _ => true | None => false end.

(** A character occurs in a string. *)
Fixpoint has_char (c : ascii) (s : string) : bool :=
  match s with
  | EmptyString => false
  | String d s' => Ascii.eqb c d || has_char c s'
  end.

End JsString.

(** ** The table rows of the exported document: [generatePDF] *)

Definition providerToken : string := "{providerName}".
Definition financialEntityToken : string := "{financialEntityName}".

(** [q.text[language].replace('{providerName}', ...).replace('{financialEntityName}', ...)] *)
Definition promptCell (lang : Language) (selectedForm : FormDataType) (q : Question)
    : string :=
  JsString.replace
    (JsString.replace (localized (text q) lang) providerToken (providerName selectedForm))
    financialEntityToken (financialEntityName selectedForm).

(** [opt.value === selectedForm.answers[q.id]]: a number is never
    strictly equal to [undefined]. *)
Definition value_is (answer : option Z) (opt : AnswerOption) : bool :=
  match answer with
  | Some v => value opt =? v
  | None => false
  end.

(** [s || ''] on a string that may be [undefined]. *)
Definition or_empty (s : option string) : string :=
  match s with
  | Some x => x
  | None => EmptyString
  end.

(** [q.options.find(...)?.text[language] || ''] *)
Definition answerCell (lang : Language) (selectedForm : FormDataType) (q : Question)
    : string :=
  or_empty
    (option_map (fun opt => localized (opt_text opt) lang)
       (List.find (value_is (answers selectedForm !! id q)) (options q))).

(** [selectedForm.observations[q.id] || ''] *)
Definition observationCell (selectedForm : FormDataType) (q : Question) : string :=
  or_empty (observations selectedForm !! id q).

Definition tableRow (lang : Language) (selectedForm : FormDataType) (q : Question)
    : list string :=
  [ promptCell lang selectedForm q;
    answerCell lang selectedForm q;
    observationCell selectedForm q ].

Definition tableData (questions : list Question) (lang : Language)
    (selectedForm : FormDataType) : list (list string) :=
  List.map (tableRow lang selectedForm) questions.

(** ** Effects of the asynchronous submit handler

    [handleFormSubmit] changes the session state, talks to the messaging
    endpoint through [axios.post] and writes to the console; a rejected
    request is an exception at the [await].  The handler is run to
    completion against a script of the endpoint's answers. *)

Inductive Response := Resolved | Rejected (reason : string).

Inductive DocOp := DocText (content : string) (x y : Z) (centered : bool).

Definition PdfDoc := list DocOp.

Inductive Request :=
  | SendMessage (chat_id message : string)
  | SendDocument (chat_id : string) (document : PdfDoc) (filename : string).

Inductive ConsoleEntry :=
  | ConsoleLog (message : string)
  | ConsoleError (message reason : string).

Record World := {
  app : AppState;
  console : list ConsoleEntry;
  outbox : list Request;
  network : nat -> Response
}.

Inductive Completion (A : Type) :=
  | Normal (a : A)
  | Throw (reason : string).
Arguments Normal {A} a.
Arguments Throw {A} reason.

Definition Eff (A : Type) : Type := World -> Completion A * World.

Definition ret {A} (a : A) : Eff A := fun w => (Normal a, w).

Definition bind {A B} (m : Eff A) (k : A -> Eff B) : Eff B :=
  fun w =>
    match m w with
    | (Normal a, w') => k a w'
    | (Throw e, w') => (Throw e, w')
    end.

Notation "'fetch' x <- m 'then' k" := (bind m (fun x => k))
  (at level 10, x name, m at level 200, k at level 200).
Notation "'exec' m 'then' k" := (bind m (fun _ => k))
  (at level 10, m at level 200, k at level 200).

(** [try { body } catch (error) { handler(error) }] *)
Definition try_catch {A} (body : Eff A) (handler : string -> Eff A) : Eff A :=
  fun w =>
    match body w with
    | (Normal a, w') => (Normal a, w')
    | (Throw e, w') => handler e w'
    end.

(** The state the handler's closure was created with. *)
Definition rendered : Eff AppState := fun w => (Normal (app w), w).

Definition setState (f : AppState -> AppState) : Eff unit :=
  fun w =>
    (Normal tt,
     {| app := f (app w); console := console w;
        outbox := outbox w; network := network w |}).

Definition console_write (e : ConsoleEntry) : Eff unit :=
  fun w =>
    (Normal tt,
     {| app := app w; console := console w ++ [e];
        outbox := outbox w; network := network w |}).

(** [await axios.post(...)]: the request leaves, and the endpoint's answer
    to the n-th request of the session decides between continuing and
    throwing. *)
Definition axios_post (r : Request) : Eff unit :=
  fun w =>
    let w' := {| app := app w; console := console w;
                 outbox := outbox w ++ [r]; network := network w |} in
    match network w (length (outbox w)) with
    | Resolved => (Normal tt, w')
    | Rejected e => (Throw e, w')
    end.

Definition TELEGRAM_CHAT_ID : string := "763968348".

Definition newline : string := String (ascii_of_nat 10) EmptyString.

Section Submit.

(** [new Date(d).toLocaleDateString()], a function of the host. *)
Variable toLocaleDateString : string -> string.

(** [generatePDF] of [App]: title and four metadata lines. *)
Definition generatePDF (d : FormDataType) : PdfDoc :=
  [ DocText "Informe DORA" 105 15 true;
    DocText ("Proveedor: " +:+ providerName d) 20 30 false;
    DocText ("Entidad Financiera: " +:+ financialEntityName d) 20 40 false;
    DocText ("Usuario: " +:+ userName d) 20 50 false;
    DocText ("Fecha: " +:+ toLocaleDateString (date d)) 20 60 false ].

Definition summaryMessage (d : FormDataType) : string :=
  "Nuevo informe DORA:" +:+ newline +:+
  "Proveedor: " +:+ providerName d +:+ newline +:+
  "Entidad Financiera: " +:+ financialEntityName d +:+ newline +:+
  "Usuario: " +:+ userName d +:+ newline +:+
  "Fecha: " +:+ toLocaleDateString (date d).

(** The two requests, the success log and the switch to the report. *)
Definition deliver (d : FormDataType) (pdfArrayBuffer : PdfDoc) : Eff unit :=
  exec axios_post (SendMessage TELEGRAM_CHAT_ID (summaryMessage d)) then
  exec axios_post (SendDocument TELEGRAM_CHAT_ID pdfArrayBuffer "informe_dora.pdf") then
  exec console_write (ConsoleLog "Mensaje y PDF enviados a Telegram con éxito") then
  setState (setCurrentView report_view).

Definition handleFormSubmit (d : FormDataType) : Eff unit :=
  fetch closure <- rendered then
  exec setState (setFormData (addSubmission d (formData closure))) then
  let pdfArrayBuffer := generatePDF d in
  try_catch
    (deliver d pdfArrayBuffer)
    (fun error =>
       console_write (ConsoleError "Error al enviar mensaje y PDF a Telegram:" error)).

End Submit.

(** The endpoint rejects the text message, or accepts it and rejects the
    document upload, counting from the requests already sent. *)
Definition delivery_fails (w : World) : Prop :=
  (exists e, network w (length (outbox w)) = Rejected e) \/
  (network w (length (outbox w)) = Resolved /\
   exists e, network w (S (length (outbox w))) = Rejected e).

Definition delivery_succeeds (w : World) : Prop :=
  network w (length (outbox w)) = Resolved /\
  network w (S (length (outbox w))) = Resolved.

(** A key that matches no stored submission. *)
Definition unknown_key (k : string) (fd : list FormDataType) : Prop :=
  Forall (fun stored => date stored <> k) fd.

(** ** The aggregate as the specification words it

    The answer value of a question is looked up in the submission's answer
    set and is 0 when the question id is absent; the score of a category
    with n > 0 questions is the sum of these values over the category's
    questions, divided by n. *)

Definition answer_value (S : FormDataType) (q : Question) : Z :=
  match answers S !! id q with
  | Some v => v
  | None => 0
  end.

Definition belongs_to (C : Category) (q : Question) : bool :=
  categoryId q =? cat_id C.

Fixpoint answer_sum (S : FormDataType) (C : Category) (Q : list Question) : Z :=
  match Q with
  | [] => 0
  | q :: Q' =>
      if belongs_to C q then answer_value S q + answer_sum S C Q'
      else answer_sum S C Q'
  end.

Fixpoint question_count (C : Category) (Q : list Question) : nat :=
  match Q with
  | [] => O
  | q :: Q' => if belongs_to C q then S (question_count C Q') else question_count C Q'
  end.

(** Every option value of every question lies in [0, 100]. *)
Definition option_values_in_range (Q : list Question) : Prop :=
  forall q opt, In q Q -> In opt (options q) -> 0 <= value opt <= 100.

(** The data model's answer set: the value recorded for a question is the
    value of one of that question's options. *)
Definition answers_are_option_values (S : FormDataType) (Q : list Question) : Prop :=
  forall q v, In q Q -> answers S !! id q = Some v ->
    exists opt, In opt (options q) /\ value opt = v.

Definition in_percent_range (x : jsnum) : Prop :=
  match x with
  | JNum q => (inject_Z 0 <= q)%Q /\ (q <= inject_Z 100)%Q
  | _ => False
  end.

(** ** Prompt templates

    A prompt written as a sequence of literal text and placeholder slots;
    [render] is the prompt as stored in the question list (slots as
    tokens), [instantiate] is the prompt with every slot filled from the
    submission. *)

Inductive Segment :=
  | Lit (s : string)
  | ProviderSlot
  | EntitySlot.

Fixpoint render (segs : list Segment) : string :=
  match segs with
  | [] => EmptyString
  | Lit s :: rest => s +:+ render rest
  | ProviderSlot :: rest => providerToken +:+ render rest
  | EntitySlot :: rest => financialEntityToken +:+ render rest
  end.

Fixpoint instantiate (selectedForm : FormDataType) (segs : list Segment) : string :=
  match segs with
  | [] => EmptyString
  | Lit s :: rest => s +:+ instantiate selectedForm rest
  | ProviderSlot :: rest => providerName selectedForm +:+ instantiate selectedForm rest
  | EntitySlot :: rest => financialEntityName selectedForm +:+ instantiate selectedForm rest
  end.

(** What one [replace] does to a template: the first slot of the kind is
    filled, the others stay. *)
Fixpoint fill_provider (v : string) (segs : list Segment) : list Segment :=
  match segs with
  | [] => []
  | ProviderSlot :: rest => Lit v :: rest
  | seg :: rest => seg :: fill_provider v rest
  end.

Fixpoint fill_entity (v : string) (segs : list Segment) : list Segment :=
  match segs with
  | [] => []
  | EntitySlot :: rest => Lit v :: rest
  | seg :: rest => seg :: fill_entity v rest
  end.

Fixpoint provider_slots (segs : list Segment) : nat :=
  match segs with
  | [] => O
  | ProviderSlot :: rest => Datatypes.S (provider_slots rest)
  | _ :: rest => provider_slots rest
  end.

Fixpoint entity_slots (segs : list Segment) : nat :=
  match segs with
  | [] => O
  | EntitySlot :: rest => Datatypes.S (entity_slots rest)
  | _ :: rest => entity_slots rest
  end.

Definition brace_free (s : string) : Prop := JsString.has_char "{" s = false.

(** Text with no opening brace and no dollar sign: it can neither form a
    token nor carry a replacement pattern. *)
Definition plain (s : string) : Prop :=
  JsString.has_char "{" s = false /\ JsString.has_char "$" s = false.

Definition literals_brace_free (segs : list Segment) : Prop :=
  Forall (fun seg => match seg with Lit s => brace_free s | _ => True end) segs.

(** The substitution clause as the specification words it: neither token
    occurs in the rendered prompt. *)
Definition no_token_remains (cell : string) : Prop :=
  JsString.includes cell providerToken = false /\
  JsString.includes cell financialEntityToken = false.

(** ** Sample data: the scenario of the specification's testable properties *)

Definition governance : Category :=
  {| cat_id := 1; cat_name := {| text_es := "Gobernanza"; text_pt := "Governança" |} |}.

Definition resilience : Category :=
  {| cat_id := 2; cat_name := {| text_es := "Resiliencia"; text_pt := "Resiliência" |} |}.

Definition yes_no : list AnswerOption :=
  [ {| value := 80; opt_text := {| text_es := "Sí"; text_pt := "Sim" |} |};
    {| value := 40; opt_text := {| text_es := "Parcial"; text_pt := "Parcial" |} |};
    {| value := 0; opt_text := {| text_es := "No"; text_pt := "Não" |} |} ].

Definition question1 : Question :=
  {| id := 1; categoryId := 1;
     text := {| text_es := "¿{providerName} informa a {financialEntityName}?";
                text_pt := "{providerName} informa {financialEntityName}?" |};
     options := yes_no |}.

Definition question2 : Question :=
  {| id := 2; categoryId := 1;
     text := {| text_es := "¿Existe un registro de incidentes?";
                text_pt := "Existe um registro de incidentes?" |};
     options := yes_no |}.

(** A prompt that names the provider twice. *)
Definition question3 : Question :=
  {| id := 3; categoryId := 2;
     text := {| text_es := "¿{providerName} audita a los subcontratistas de {providerName}?";
                text_pt := "{providerName} audita os subcontratados de {providerName}?" |};
     options := yes_no |}.

Definition sample_questions : list Question := [question1; question2].

Definition sample_form : FormDataType :=
  {| providerName := "Acme"; financialEntityName := "Banco Uno";
     userName := "ana"; date := "2024-05-01T10:00:00.000Z";
     answers := {[ 1 := 80; 2 := 40 ]};
     observations := {[ 1 := "revisado" ]} |}.

(** Same creation timestamp as [sample_form], other content. *)
Definition sample_twin : FormDataType :=
  {| providerName := "Otro"; financialEntityName := "Banco Dos";
     userName := "luis"; date := "2024-05-01T10:00:00.000Z";
     answers := {[ 1 := 40 ]};
     observations := ∅ |}.

Definition sample_other : FormDataType :=
  {| providerName := "Tercero"; financialEntityName := "Banco Tres";
     userName := "eva"; date := "2024-06-02T08:30:00.000Z";
     answers := {[ 1 := 80 ]};
     observations := ∅ |}.

(** An answer set recording, for question 1, a value that is no option. *)
Definition sample_stray : FormDataType :=
  {| providerName := "Cuarto"; financialEntityName := "Banco Cuatro";
     userName := "noa"; date := "2024-07-03T09:15:00.000Z";
     answers := {[ 1 := 55 ]};
     observations := {[ 1 := "pendiente" ]} |}.

Definition sample_state (fd : list FormDataType) : AppState :=
  {| currentView := form_view; language := es; formData := fd;
     draftList := []; app_userName := "ana"; app_providerName := "Acme";
     app_financialEntityName := "Banco Uno"; currentDraft := None |}.

Definition sample_world (net : nat -> Response) (fd : list FormDataType) : World :=
  {| app := sample_state fd; console := []; outbox := []; network := net |}.

(** The session state once the handler has added the submission, before
    any answer of the endpoint is known. *)
Definition submission_added (d : FormDataType) (w : World) : AppState :=
  setFormData (addSubmission d (formData (app w))) (app w).

(** The components render from the session state alone, so a notice of a
    failed delivery has to be a difference between the state the handler
    leaves behind and the state in which the submission was merely added. *)
Definition failure_notice_shown (d : FormDataType) (w w' : World) : Prop :=
  app w' <> submission_added d w.

(** The delivery clause as the specification words it: on a failed
    delivery the handler completes normally, a failure notice is shown,
    and the new submission is in the list. *)
Definition delivery_clause_as_specified (toLocaleDateString : string -> string)
    (d : FormDataType) (w : World) : Prop :=
  delivery_fails w ->
  fst (handleFormSubmit toLocaleDateString d w) = Normal tt /\
  failure_notice_shown d w (snd (handleFormSubmit toLocaleDateString d w)) /\
  In d (formData (app (snd (handleFormSubmit toLocaleDateString d w)))).

(** ** The remaining handlers of [App] *)

Definition setCurrentDraft (d : option Draft) (st : AppState) : AppState :=
  {| currentView := currentView st; language := language st;
     formData := formData st; draftList := draftList st;
     app_userName := app_userName st;
     app_providerName := app_providerName st;
     app_financialEntityName := app_financialEntityName st;
     currentDraft := d |}.

Definition setNames (provider entity user : string) (st : AppState) : AppState :=
  {| currentView := currentView st; language := language st;
     formData := formData st; draftList := draftList st;
     app_userName := user;
     app_providerName := provider;
     app_financialEntityName := entity;
     currentDraft := currentDraft st |}.

(** [setProviderName], [setFinancialEntityName], [setUserName], then
    [setCurrentView('form')]. *)
Definition handleStartQuestionnaire (provider entity user : string)
    (st : AppState) : AppState :=
  setCurrentView form_view (setNames provider entity user st).

(** [setCurrentDraft(draft); setCurrentView('form')] *)
Definition handleContinueDraft (draft : Draft) (st : AppState) : AppState :=
  setCurrentView form_view (setCurrentDraft (Some draft) st).

(** ** Exceptions in pure code

    Reading a property of [undefined] throws a [TypeError]; [Array.map]
    with a throwing callback stops at the first element that throws. *)

Definition typeError : string := "TypeError: Cannot read properties of undefined".

Definition and_then {A B} (m : Completion A) (k : A -> Completion B) : Completion B :=
  match m with
  | Normal a => k a
  | Throw err => Throw err
  end.

Fixpoint array_map {A B} (f : A -> Completion B) (l : list A) : Completion (list B) :=
  match l with
  | [] => Normal []
  | x :: l' =>
      and_then (f x) (fun y =>
      and_then (array_map f l') (fun ys => Normal (y :: ys)))
  end.

(** [selectedData.answers], where [selectedData] may be [undefined]. *)
Definition answers_of (selectedData : option FormDataType) : Completion (gmap Z Z) :=
  match selectedData with
  | Some f => Normal (answers f)
  | None => Throw typeError
  end.

(** [generateChartData] applied to [formData[selectedFormIndex]], which is
    [undefined] when the index is past the end of the list.  The labels
    are computed first and read nothing of the argument; the callback of
    the inner map reads [selectedData.answers] once per question. *)
Definition generateChartDataAt (questions : list Question) (categories : list Category)
    (lang : Language) (selectedData : option FormDataType) : Completion ChartData :=
  let chartLabels :=
    List.map (fun category => localized (cat_name category) lang) categories in
  and_then
    (array_map
       (fun category =>
          and_then
            (array_map
               (fun q => and_then (answers_of selectedData)
                           (fun a => Normal (or_zero (a !! id q))))
               (categoryQuestions questions category))
            (fun scores => Normal (average scores)))
       categories)
    (fun series =>
       Normal {| labels := chartLabels;
                 dataset_label := match lang with es => "Puntuación" | pt => "Pontuação" end;
                 data := series |}).

(** ** The remaining handlers and the chart of [SavedForms] *)

(** [handleSelectForm]: the index is stored, the edit buffers are loaded
    from the selected submission and edit mode is left.  The handler is
    bound to the rows of the rendered list, so the index is in range; past
    the end, [formData[index].answers] throws after the index was stored. *)
Definition handleSelectForm (index : nat) (fd : list FormDataType)
    (sf : SavedFormsState) : Completion unit * SavedFormsState :=
  match fd !! index with
  | Some f =>
      (Normal tt,
       {| selectedFormIndex := Some index;
          editedAnswers := answers f;
          editedObservations := observations f;
          isEditing := false |})
  | None =>
      (Throw typeError,
       {| selectedFormIndex := Some index;
          editedAnswers := editedAnswers sf;
          editedObservations := editedObservations sf;
          isEditing := isEditing sf |})
  end.

(** [setIsEditing(!isEditing)] *)
Definition handleEditToggle (sf : SavedFormsState) : SavedFormsState :=
  setIsEditing (negb (isEditing sf)) sf.

(** The delete button of the selected submission:
    [onDeleteForm(formData[selectedFormIndex].date)].  The component state
    is not touched. *)
Definition deleteSelected (i : nat) (st : AppState) : Completion AppState :=
  match formData st !! i with
  | Some f => Normal (handleDeleteForm (date f) st)
  | None => Throw typeError
  end.

(** The chart of the detail pane: rendered only with a selection, from
    [generateChartData(formData[selectedFormIndex])]. *)
Definition savedFormsChart (questions : list Question) (categories : list Category)
    (lang : Language) (fd : list FormDataType) (sf : SavedFormsState)
    : option (Completion ChartData) :=
  match selectedFormIndex sf with
  | Some i => Some (generateChartDataAt questions categories lang (fd !! i))
  | None => None
  end.

(** ** The render of [Report]

    With an empty list the component returns the notice before anything
    is read from the list; otherwise the chart data and the four detail
    lines are computed from [formData[selectedFormIndex]]. *)
Record ReportDetails := {
  detail_provider : string;
  detail_entity : string;
  detail_user : string;
  detail_date : string
}.

Inductive ReportRender :=
  | NoReportsNotice
  | ReportBody (body : Completion (ChartData * ReportDetails)).

(** [language === 'es' ? 'es-ES' : 'pt-BR'] *)
Definition locale_of (lang : Language) : string :=
  match lang with es => "es-ES" | pt => "pt-BR" end.

(** The four detail lines; the date line is
    [new Date(selectedForm.date).toLocaleDateString(locale)], a function
    of the host taken as a parameter (locale first, then the stored
    date). *)
Definition details_of (toLocaleDateStringIn : string -> string -> string)
    (lang : Language) (selectedForm : option FormDataType) : Completion ReportDetails :=
  match selectedForm with
  | Some f =>
      Normal {| detail_provider := providerName f;
                detail_entity := financialEntityName f;
                detail_user := userName f;
                detail_date := toLocaleDateStringIn (locale_of lang) (date f) |}
  | None => Throw typeError
  end.

Definition reportRender (toLocaleDateStringIn : string -> string -> string)
    (questions : list Question) (categories : list Category)
    (lang : Language) (fd : list FormDataType) (selectedIndex : nat) : ReportRender :=
  if (length fd =? 0)%nat then NoReportsNotice
  else
    let selectedForm := fd !! selectedIndex in
    ReportBody
      (and_then (generateChartDataAt questions categories lang selectedForm)
         (fun chartData =>
            and_then (details_of toLocaleDateStringIn lang selectedForm)
              (fun details => Normal (chartData, details)))).

(** Some category of the list has a question. *)
Definition some_category_has_questions (questions : list Question)
    (categories : list Category) : bool :=
  existsb (fun category =>
             match categoryQuestions questions category with
             | [] => false
             | _ :: _ => true
             end) categories.

(** ** The session as a sequence of events

    The handlers run one at a time, each to completion; the two [await]s
    of [handleFormSubmit] are the only places where a handler is suspended
    and other events come in between.  A delivery in flight remembers its
    submission and which of the two requests it waits for; the endpoint's
    answer is an event of its own. *)

Definition setLanguage (l : Language) (st : AppState) : AppState :=
  {| currentView := currentView st; language := l;
     formData := formData st; draftList := draftList st;
     app_userName := app_userName st;
     app_providerName := app_providerName st;
     app_financialEntityName := app_financialEntityName st;
     currentDraft := currentDraft st |}.

Inductive Awaiting := AwaitingMessage | AwaitingDocument.

Record Delivery := { delivery_data : FormDataType; awaiting : Awaiting }.

Record Session := {
  session_app : AppState;
  session_console : list ConsoleEntry;
  session_outbox : list Request;
  inflight : list Delivery
}.

Inductive Event :=
  | StartQuestionnaire (provider entity user : string)
  | SaveDraft (d : Draft)
  | ContinueDraft (d : Draft)
  | DeleteDraft (k : string)
  | UpdateForm (f : FormDataType)
  | DeleteForm (k : string)
  | Navigate (v : View)
  | ChooseLanguage (l : Language)
  | Submit (d : FormDataType)
  | Respond (n : nat) (r : Response).

Definition on_app (f : AppState -> AppState) (s : Session) : Session :=
  {| session_app := f (session_app s);
     session_console := session_console s;
     session_outbox := session_outbox s;
     inflight := inflight s |}.

Section Events.

Variable toLocaleDateString : string -> string.

(** [handleFormSubmit] up to its first [await]: the submission is added
    and the text message leaves. *)
Definition submit_start (d : FormDataType) (s : Session) : Session :=
  {| session_app := setFormData (addSubmission d (formData (session_app s))) (session_app s);
     session_console := session_console s;
     session_outbox := session_outbox s ++
       [SendMessage TELEGRAM_CHAT_ID (summaryMessage toLocaleDateString d)];
     inflight := inflight s ++ [{| delivery_data := d; awaiting := AwaitingMessage |}] |}.

(** [handleFormSubmit] resumed by the endpoint's answer to the request
    the n-th delivery in flight waits for. *)
Definition submit_resume (n : nat) (r : Response) (s : Session) : Session :=
  match inflight s !! n with
  | None => s
  | Some dl =>
      match r with
      | Rejected reason =>
          {| session_app := session_app s;
             session_console := session_console s ++
               [ConsoleError "Error al enviar mensaje y PDF a Telegram:" reason];
             session_outbox := session_outbox s;
             inflight := delete n (inflight s) |}
      | Resolved =>
          match awaiting dl with
          | AwaitingMessage =>
              {| session_app := session_app s;
                 session_console := session_console s;
                 session_outbox := session_outbox s ++
                   [SendDocument TELEGRAM_CHAT_ID
                      (generatePDF toLocaleDateString (delivery_data dl))
                      "informe_dora.pdf"];
                 inflight :=
                   <[n := {| delivery_data := delivery_data dl;
                             awaiting := AwaitingDocument |}]> (inflight s) |}
          | AwaitingDocument =>
              {| session_app := setCurrentView report_view (session_app s);
                 session_console := session_console s ++
                   [ConsoleLog "Mensaje y PDF enviados a Telegram con éxito"];
                 session_outbox := session_outbox s;
                 inflight := delete n (inflight s) |}
          end
      end
  end.

Definition step (s : Session) (ev : Event) : Session :=
  match ev with
  | StartQuestionnaire provider entity user =>
      on_app (handleStartQuestionnaire provider entity user) s
  | SaveDraft d => on_app (handleSaveDraft d) s
  | ContinueDraft d => on_app (handleContinueDraft d) s
  | DeleteDraft k => on_app (handleDeleteDraft k) s
  | UpdateForm f => on_app (handleUpdateForm f) s
  | DeleteForm k => on_app (handleDeleteForm k) s
  | Navigate v => on_app (setCurrentView v) s
  | ChooseLanguage l => on_app (setLanguage l) s
  | Submit d => submit_start d s
  | Respond n r => submit_resume n r s
  end.

Definition run (evs : list Event) (s : Session) : Session :=
  fold_left step evs s.

End Events.

(** An event of the user interface: anything but an answer of the
    endpoint. *)
Definition user_event (ev : Event) : Prop :=
  match ev with
  | Respond _ _ => False
  | _ => True
  end.

(** The session a world stands for when no delivery is in flight. *)
Definition session_of (w : World) : Session :=
  {| session_app := app w; session_console := console w;
     session_outbox := outbox w; inflight := [] |}.

(** The events of one submit whose answers arrive before anything else
    happens, for the answers the world's script gives. *)
Definition uninterrupted_submit (d : FormDataType) (w : World) : list Event :=
  match network w (length (outbox w)) with
  | Rejected reason => [Submit d; Respond 0 (Rejected reason)]
  | Resolved =>
      [Submit d; Respond 0 Resolved;
       Respond 0 (network w (Datatypes.S (length (outbox w))))]
  end.

(** ** The aggregate in double-precision arithmetic

    [average] above keeps sums and quotients exact.  JavaScript numbers
    are IEEE 754 binary64 values: every addition of the [reduce] and the
    final division round to the nearest double, ties to the even
    significand.  The definitions below are the same expression with that
    rounding. *)

(** [floor_log2 a d] is the integer e with 2^e <= a/d < 2^(e+1), for
    a > 0. *)
Definition floor_log2 (a : Z) (d : positive) : Z :=
  let e0 := Z.log2 a - Z.log2 (Z.pos d) in
  if (if 0 <=? e0 then Z.pos d * 2 ^ e0 <=? a else Z.pos d <=? a * 2 ^ (- e0))
  then e0 else e0 - 1.

(** The integer nearest to num/den (den > 0, num >= 0), ties to even. *)
Definition round_half_even (num den : Z) : Z :=
  let f := num / den in
  let r := num mod den in
  match 2 * r ?= den with
  | Lt => f
  | Gt => f + 1
  | Eq => if Z.even f then f else f + 1
  end.

(** The double nearest to a/d for a > 0: a significand of 53 bits at the
    exponent of a/d, or at the least exponent -1022 for subnormal results;
    no value when the rounded magnitude reaches 2^1024. *)
Definition round_magnitude (a : Z) (d : positive) : option Q :=
  let e := Z.max (floor_log2 a d) (-1022) in
  let k := e - 52 in
  if k <? 0 then
    Some (Qred (round_half_even (a * 2 ^ (- k)) (Z.pos d) # Z.to_pos (2 ^ (- k))))
  else
    let m := round_half_even a (Z.pos d * 2 ^ k) in
    if 2 ^ 1024 <=? m * 2 ^ k then None else Some (m * 2 ^ k # 1).

Definition round_double (q : Q) : jsnum :=
  match Qnum q with
  | Z0 => JNum (0 # 1)
  | Zpos a =>
      match round_magnitude (Zpos a) (Qden q) with
      | Some r => JNum r
      | None => JInfinity false
      end
  | Zneg a =>
      match round_magnitude (Zpos a) (Qden q) with
      | Some r => JNum (Qopp r)
      | None => JInfinity true
      end
  end.

(** [x + y] on numbers. *)
Definition js_add (x y : jsnum) : jsnum :=
  match x, y with
  | JNaN, _ => JNaN
  | _, JNaN => JNaN
  | JInfinity s, JInfinity t => if Bool.eqb s t then JInfinity s else JNaN
  | JInfinity s, JNum _ => JInfinity s
  | JNum _, JInfinity t => JInfinity t
  | JNum a, JNum b => round_double (a + b)%Q
  end.

(** [x / n] for the length n of an array. *)
Definition js_quot (x : jsnum) (n : nat) : jsnum :=
  match n with
  | O =>
      match x with
      | JNum q =>
          match Qnum q with
          | Z0 => JNaN
          | Zpos _ => JInfinity false
          | Zneg _ => JInfinity true
          end
      | JInfinity s => JInfinity s
      | JNaN => JNaN
      end
  | Datatypes.S _ =>
      match x with
      | JNum q => round_double (Qnum q # (Qden q * Pos.of_nat n))
      | JInfinity s => JInfinity s
      | JNaN => JNaN
      end
  end.

(** An integer answer value as a number; integers of magnitude below 2^53
    are doubles as they are. *)
Definition number_of (v : Z) : jsnum := JNum (v # 1).

(** [categoryScores.reduce((sum, score) => sum + score, 0) / categoryScores.length]
    in double-precision arithmetic. *)
Definition average_double (scores : list Z) : jsnum :=
  js_quot
    (fold_left (fun sum score => js_add sum (number_of score)) scores (number_of 0))
    (length scores).

Definition categoryScore_double (questions : list Question)
    (selectedData : FormDataType) (category : Category) : jsnum :=
  average_double (categoryScores selectedData (categoryQuestions questions category)).

(** No addition of the [reduce] rounds: every value added and every
    running sum is an integer of magnitude below 2^53. *)
Fixpoint additions_exact (sum : Z) (scores : list Z) : Prop :=
  match scores with
  | [] => True
  | score :: rest =>
      Z.abs score < 2 ^ 53 /\ Z.abs (sum + score) < 2 ^ 53 /\
      additions_exact (sum + score) rest
  end.

(** An answer set with a value that is no option of its question. *)
Definition sample_excess : FormDataType :=
  {| providerName := "Quinto"; financialEntityName := "Banco Cinco";
     userName := "leo"; date := "2024-08-04T11:45:00.000Z";
     answers := {[ 1 := 500 ]};
     observations := ∅ |}.

(** The bound clause as the specification words it: the score lies in
    [0, 100] whenever every option value does. *)
Definition bound_clause_as_specified (Q : list Question) (S : FormDataType)
    (C : Category) : Prop :=
  option_values_in_range Q -> in_percent_range (categoryScore_double Q S C).

(** * Properties *)

(** ** The store *)

Section Store.

Implicit Types (fd : list FormDataType) (s f : FormDataType) (k : string).
Implicit Types (st : AppState).

Lemma setFormData_same st : setFormData (formData st) st = st.
Proof. destruct st; reflexivity. Qed.

Lemma formData_setFormData fd st : formData (setFormData fd st) = fd.
Proof. reflexivity. Qed.

Lemma setFormData_twice fd fd' st :
  setFormData fd (setFormData fd' st) = setFormData fd st.
Proof. reflexivity. Qed.

Lemma updateSubmission_unknown s fd :
  unknown_key (date s) fd -> updateSubmission s fd = fd.
Proof.
  unfold unknown_key, updateSubmission.
  induction 1 as [|g fd Hg _ IH]; simpl.
  - reflexivity.
  - apply String.eqb_neq in Hg. rewrite Hg, IH. reflexivity.
Qed.

Lemma deleteSubmission_unknown k fd :
  unknown_key k fd -> deleteSubmission k fd = fd.
Proof.
  unfold unknown_key, deleteSubmission.
  induction 1 as [|g fd Hg _ IH]; simpl.
  - reflexivity.
  - apply String.eqb_neq in Hg. rewrite Hg, IH. reflexivity.
Qed.

Lemma deleteSubmission_removes_key k fd :
  unknown_key k (deleteSubmission k fd).
Proof.
  unfold unknown_key, deleteSubmission.
  induction fd as [|g fd IH]; simpl.
  - constructor.
  - destruct (String.eqb (date g) k) eqn:E; simpl.
    + exact IH.
    + constructor; [now apply String.eqb_neq | exact IH].
Qed.

Lemma deleteSubmission_keeps_others k fd f :
  In f fd -> date f <> k -> In f (deleteSubmission k fd).
Proof.
  intros Hin Hne. unfold deleteSubmission.
  apply filter_In. split; [exact Hin|].
  apply String.eqb_neq in Hne. now rewrite Hne.
Qed.

Lemma updateSubmission_lookup s fd (i : nat) :
  updateSubmission s fd !! i =
  (fun g => if String.eqb (date g) (date s) then s else g) <$> (fd !! i).
Proof. unfold updateSubmission. apply list_lookup_fmap. Qed.

Lemma updateSubmission_hit s fd (i : nat) f :
  fd !! i = Some f -> date f = date s -> updateSubmission s fd !! i = Some s.
Proof.
  intros Hi Hd. rewrite updateSubmission_lookup, Hi. simpl.
  rewrite Hd, String.eqb_refl. reflexivity.
Qed.

Lemma updateSubmission_miss s fd (i : nat) f :
  fd !! i = Some f -> date f <> date s -> updateSubmission s fd !! i = Some f.
Proof.
  intros Hi Hd. rewrite updateSubmission_lookup, Hi. simpl.
  apply String.eqb_neq in Hd. rewrite Hd. reflexivity.
Qed.

Lemma updateSubmission_twice s fd :
  updateSubmission s (updateSubmission s fd) = updateSubmission s fd.
Proof.
  unfold updateSubmission. rewrite List.map_map.
  apply List.map_ext. intros g.
  destruct (String.eqb (date g) (date s)) eqn:E.
  - rewrite String.eqb_refl. reflexivity.
  - rewrite E. reflexivity.
Qed.

Lemma updateSubmission_length s fd :
  length (updateSubmission s fd) = length fd.
Proof. unfold updateSubmission. apply List.length_map. Qed.

End Store.

(** C3: for every store state, an update or a delete whose identity key
    (creation timestamp) matches no stored submission leaves the state as
    it is, and a second delete with the same key changes nothing. *)
Theorem unknown_key_is_silent_noop (st : AppState) :
  (forall s, unknown_key (date s) (formData st) -> handleUpdateForm s st = st) /\
  (forall k, unknown_key k (formData st) -> handleDeleteForm k st = st) /\
  (forall k, handleDeleteForm k (handleDeleteForm k st) = handleDeleteForm k st).
Proof.
  unfold handleUpdateForm, handleDeleteForm. repeat split.
  - intros s Hs. rewrite (updateSubmission_unknown _ _ Hs). apply setFormData_same.
  - intros k Hk. rewrite (deleteSubmission_unknown _ _ Hk). apply setFormData_same.
  - intros k. rewrite formData_setFormData, setFormData_twice.
    rewrite (deleteSubmission_unknown k (deleteSubmission k (formData st))).
    + reflexivity.
    + apply deleteSubmission_removes_key.
Qed.

Lemma unknown_key_is_silent_noop_witness :
  handleUpdateForm sample_other (sample_state [sample_form; sample_twin])
    = sample_state [sample_form; sample_twin] /\
  handleDeleteForm "1999-01-01T00:00:00.000Z" (sample_state [sample_form; sample_twin])
    = sample_state [sample_form; sample_twin].
Proof.
  destruct (unknown_key_is_silent_noop (sample_state [sample_form; sample_twin]))
    as (Hupdate & Hdelete & _).
  split.
  - apply Hupdate. repeat constructor; discriminate.
  - apply Hdelete. repeat constructor; discriminate.
Defined.

(** C4: updateSubmission is idempotent: applying the same update twice
    gives the same state as applying it once. *)
Theorem update_is_idempotent (st : AppState) (s : FormDataType) :
  handleUpdateForm s (handleUpdateForm s st) = handleUpdateForm s st.
Proof.
  unfold handleUpdateForm.
  rewrite formData_setFormData, setFormData_twice, updateSubmission_twice.
  reflexivity.
Qed.

(** C9: identity keys are not checked for uniqueness.  When two stored
    submissions share the creation timestamp of [s], an update with [s]
    puts [s] at both positions (and at every position holding that
    timestamp), and a delete with that timestamp leaves no submission
    carrying it while keeping every other one. *)
Theorem shared_key_hits_every_match
    (fd : list FormDataType) (s f1 f2 : FormDataType) (i j : nat) :
  i <> j ->
  fd !! i = Some f1 -> fd !! j = Some f2 ->
  date f1 = date s -> date f2 = date s ->
  (updateSubmission s fd !! i = Some s /\ updateSubmission s fd !! j = Some s) /\
  (forall (n : nat) f, fd !! n = Some f -> date f = date s ->
     updateSubmission s fd !! n = Some s) /\
  Forall (fun f => date f <> date s) (deleteSubmission (date s) fd) /\
  (forall f, In f fd -> date f <> date s -> In f (deleteSubmission (date s) fd)).
Proof.
  intros _ Hi Hj H1 H2. repeat split.
  - exact (updateSubmission_hit _ _ _ _ Hi H1).
  - exact (updateSubmission_hit _ _ _ _ Hj H2).
  - intros n f. apply updateSubmission_hit.
  - apply deleteSubmission_removes_key.
  - intros f. apply deleteSubmission_keeps_others.
Qed.

Lemma shared_key_hits_every_match_witness :
  updateSubmission sample_form [sample_form; sample_other; sample_twin]
    = [sample_form; sample_other; sample_form] /\
  deleteSubmission (date sample_form) [sample_form; sample_other; sample_twin]
    = [sample_other] /\
  Forall (fun f => date f <> date sample_form)
    (deleteSubmission (date sample_form) [sample_form; sample_other; sample_twin]).
Proof.
  split; [reflexivity | split; [reflexivity |]].
  apply (shared_key_hits_every_match
           [sample_form; sample_other; sample_twin] sample_form
           sample_form sample_twin 0 2);
    first [ reflexivity | discriminate ].
Defined.

(** ** Saving edited answers *)

Lemma handleSaveChanges_lookup (sf : SavedFormsState) (st : AppState)
    (i : nat) (f : FormDataType) :
  selectedFormIndex sf = Some i ->
  formData st !! i = Some f ->
  formData (snd (handleSaveChanges sf st)) !! i = Some (withEdits f sf).
Proof.
  intros Hsel Hi. unfold handleSaveChanges. rewrite Hsel, Hi. simpl.
  apply (updateSubmission_hit _ _ _ f); [exact Hi | reflexivity].
Qed.

(** C5: a submission is added, selected in the saved-forms view and saved
    with edited answer and observation sets; the submission read back at
    its position carries exactly the new answers and observations, and its
    provider name, financial-entity name, user name and creation timestamp
    are those of the original. *)
Theorem add_edit_read_back
    (fd : list FormDataType) (s : FormDataType) (st : AppState)
    (newAnswers : gmap Z Z) (newObservations : gmap Z string) (editing : bool) :
  formData st = addSubmission s fd ->
  let sf := {| selectedFormIndex := Some (length fd);
               editedAnswers := newAnswers;
               editedObservations := newObservations;
               isEditing := editing |} in
  exists stored,
    formData (snd (handleSaveChanges sf st)) !! length fd = Some stored /\
    answers stored = newAnswers /\
    observations stored = newObservations /\
    providerName stored = providerName s /\
    financialEntityName stored = financialEntityName s /\
    userName stored = userName s /\
    date stored = date s.
Proof.
  intros Hadd sf. exists (withEdits s sf). split.
  - apply handleSaveChanges_lookup; [reflexivity|].
    rewrite Hadd. unfold addSubmission.
    rewrite lookup_app_r by reflexivity.
    now rewrite Nat.sub_diag.
  - repeat split.
Qed.

Lemma add_edit_read_back_witness :
  exists stored,
    formData (snd (handleSaveChanges
                     {| selectedFormIndex := Some 1%nat;
                        editedAnswers := {[ 1 := 40; 2 := 80 ]};
                        editedObservations := {[ 2 := "nuevo" ]};
                        isEditing := true |}
                     (sample_state [sample_other; sample_form]))) !! 1%nat
      = Some stored /\
    answers stored = {[ 1 := 40; 2 := 80 ]} /\
    observations stored = {[ 2 := "nuevo" ]} /\
    providerName stored = "Acme" /\
    financialEntityName stored = "Banco Uno" /\
    userName stored = "ana" /\
    date stored = "2024-05-01T10:00:00.000Z".
Proof.
  apply (add_edit_read_back [sample_other] sample_form
           (sample_state [sample_other; sample_form])
           {[ 1 := 40; 2 := 80 ]} {[ 2 := "nuevo" ]} true).
  reflexivity.
Defined.

(** ** The submit handler *)

(** Unfolds the handler and the effect primitives down to the case
    analysis on the endpoint's answers. *)
Ltac run_handler :=
  unfold handleFormSubmit, deliver, try_catch, bind, rendered, setState,
    axios_post, console_write; simpl.

Section SubmitProperties.

Variable toLocaleDateString : string -> string.

Let failureMessage : string := "Error al enviar mensaje y PDF a Telegram:".

Lemma handleFormSubmit_first_rejected d w e :
  network w (length (outbox w)) = Rejected e ->
  handleFormSubmit toLocaleDateString d w =
    (Normal tt,
     {| app := submission_added d w;
        console := console w ++ [ConsoleError failureMessage e];
        outbox := outbox w ++
          [SendMessage TELEGRAM_CHAT_ID (summaryMessage toLocaleDateString d)];
        network := network w |}).
Proof.
  intros H.
  run_handler.
  rewrite H. reflexivity.
Qed.

Lemma handleFormSubmit_second_rejected d w e :
  network w (length (outbox w)) = Resolved ->
  network w (S (length (outbox w))) = Rejected e ->
  handleFormSubmit toLocaleDateString d w =
    (Normal tt,
     {| app := submission_added d w;
        console := console w ++ [ConsoleError failureMessage e];
        outbox := (outbox w ++
          [SendMessage TELEGRAM_CHAT_ID (summaryMessage toLocaleDateString d)]) ++
          [SendDocument TELEGRAM_CHAT_ID (generatePDF toLocaleDateString d)
             "informe_dora.pdf"];
        network := network w |}).
Proof.
  intros H1 H2.
  run_handler.
  rewrite H1; simpl.
  rewrite length_app, Nat.add_1_r, H2. reflexivity.
Qed.

Lemma handleFormSubmit_delivered d w :
  delivery_succeeds w ->
  handleFormSubmit toLocaleDateString d w =
    (Normal tt,
     {| app := setCurrentView report_view (submission_added d w);
        console := console w ++
          [ConsoleLog "Mensaje y PDF enviados a Telegram con éxito"];
        outbox := (outbox w ++
          [SendMessage TELEGRAM_CHAT_ID (summaryMessage toLocaleDateString d)]) ++
          [SendDocument TELEGRAM_CHAT_ID (generatePDF toLocaleDateString d)
             "informe_dora.pdf"];
        network := network w |}).
Proof.
  intros [H1 H2].
  run_handler.
  rewrite H1; simpl.
  rewrite length_app, Nat.add_1_r, H2. reflexivity.
Qed.

Lemma delivery_outcomes w : delivery_fails w \/ delivery_succeeds w.
Proof.
  unfold delivery_fails, delivery_succeeds.
  destruct (network w (length (outbox w))) as [|e1] eqn:E1.
  - destruct (network w (S (length (outbox w)))) as [|e2] eqn:E2.
    + right. split; reflexivity.
    + left. right. split; [reflexivity | exists e2; reflexivity].
  - left. left. exists e1. reflexivity.
Qed.

(** Whatever the endpoint answers, the handler completes normally and
    the list is the old one followed by the new submission. *)
Lemma handleFormSubmit_total d w :
  fst (handleFormSubmit toLocaleDateString d w) = Normal tt /\
  formData (app (snd (handleFormSubmit toLocaleDateString d w)))
    = (formData (app w) ++ [d])%list.
Proof.
  destruct (delivery_outcomes w) as [[[e H]|[H1 [e H2]]]|Hok].
  - rewrite (handleFormSubmit_first_rejected _ _ _ H). split; reflexivity.
  - rewrite (handleFormSubmit_second_rejected _ _ _ H1 H2). split; reflexivity.
  - rewrite (handleFormSubmit_delivered _ _ Hok). split; reflexivity.
Qed.

End SubmitProperties.

(** C8: the submit handler appends the submission at the end of the
    collection, whatever the endpoint answers afterwards: every submission
    stored before is still at its position, and the new one follows them. *)
Theorem submit_appends_at_end
    (toLocaleDateString : string -> string) (d : FormDataType) (w : World) :
  let fd := formData (app w) in
  let fd' := formData (app (snd (handleFormSubmit toLocaleDateString d w))) in
  fd' = addSubmission d fd /\
  fd' = (fd ++ [d])%list /\
  (forall (i : nat) f, fd !! i = Some f -> fd' !! i = Some f) /\
  fd' !! length fd = Some d /\
  length fd' = S (length fd).
Proof.
  intros fd fd'.
  assert (H : fd' = (fd ++ [d])%list)
    by apply (handleFormSubmit_total toLocaleDateString d w).
  rewrite H. repeat split.
  - intros i f Hi. now apply lookup_app_l_Some.
  - rewrite lookup_app_r by reflexivity. now rewrite Nat.sub_diag.
  - rewrite length_app. simpl. lia.
Qed.

(** C2 (amended): the handler completes normally and the list contains
    the new submission whatever the endpoint answers.  When the text
    message or the document upload is rejected, the rejection is caught and
    written to the console's error stream, and the session state is
    exactly the one in which the submission was added: the view is not
    switched and nothing in the rendered state tells the user about the
    failure. *)
Theorem failed_delivery_is_caught_and_logged
    (toLocaleDateString : string -> string) (d : FormDataType) (w : World) :
  let r := handleFormSubmit toLocaleDateString d w in
  (fst r = Normal tt /\ In d (formData (app (snd r)))) /\
  (delivery_fails w ->
     app (snd r) = submission_added d w /\
     currentView (app (snd r)) = currentView (app w) /\
     exists e, console (snd r) =
       (console w ++ [ConsoleError "Error al enviar mensaje y PDF a Telegram:" e])%list).
Proof.
  intros r. subst r. split.
  - destruct (handleFormSubmit_total toLocaleDateString d w) as [Hn Hfd].
    split; [exact Hn|]. rewrite Hfd. apply in_or_app. right. now left.
  - intros [[e H]|[H1 [e H2]]].
    + rewrite (handleFormSubmit_first_rejected _ _ _ _ H). simpl.
      repeat split. exists e. reflexivity.
    + rewrite (handleFormSubmit_second_rejected _ _ _ _ H1 H2). simpl.
      repeat split. exists e. reflexivity.
Qed.

Lemma failed_delivery_is_caught_and_logged_witness :
  let w := sample_world (fun n => match n with O => Resolved | _ => Rejected "timeout" end)
             [sample_other] in
  let r := handleFormSubmit (fun d => d) sample_form w in
  fst r = Normal tt /\
  formData (app (snd r)) = [sample_other; sample_form] /\
  currentView (app (snd r)) = form_view /\
  exists e, console (snd r) =
    [ConsoleError "Error al enviar mensaje y PDF a Telegram:" e].
Proof.
  pose proof (failed_delivery_is_caught_and_logged (fun d => d) sample_form
    (sample_world (fun n => match n with O => Resolved | _ => Rejected "timeout" end)
       [sample_other])) as [[Hn _] Hfail].
  destruct Hfail as (Happ & Hview & Hlog).
  { right. split; [reflexivity | exists "timeout"; reflexivity]. }
  cbv zeta. split; [exact Hn|]. split; [|split; [exact Hview | exact Hlog]].
  rewrite Happ. reflexivity.
Defined.

(** C2 as the specification words it fails: with the endpoint down, the
    state the view renders from is the state with the submission added and
    nothing else, so no failure notice is shown. *)
Lemma failure_notice_counterexample :
  let w := sample_world (fun _ => Rejected "Network Error") [] in
  delivery_fails w /\
  handleFormSubmit (fun d => d) sample_form w =
    (Normal tt,
     {| app := sample_state [sample_form];
        console := [ConsoleError "Error al enviar mensaje y PDF a Telegram:"
                      "Network Error"];
        outbox := [SendMessage TELEGRAM_CHAT_ID (summaryMessage (fun d => d) sample_form)];
        network := fun _ => Rejected "Network Error" |}) /\
  ~ delivery_clause_as_specified (fun d => d) sample_form w.
Proof.
  cbv zeta.
  assert (Hfail : delivery_fails (sample_world (fun _ => Rejected "Network Error") []))
    by (left; exists "Network Error"; reflexivity).
  split; [exact Hfail|]. split.
  - reflexivity.
  - intros Hclaim. destruct (Hclaim Hfail) as (_ & Hnotice & _).
    apply Hnotice. reflexivity.
Qed.

(** ** The score aggregator *)

Section Aggregator.

Variables (S : FormDataType) (C : Category).

Lemma or_zero_lookup (q : Question) :
  or_zero (answers S !! id q) = answer_value S q.
Proof.
  unfold or_zero, answer_value.
  destruct (answers S !! id q) as [v|]; [|reflexivity].
  destruct (Z.eqb_spec v 0) as [->|_]; reflexivity.
Qed.

Lemma reduce_sum (scores : list Z) (start : Z) :
  fold_left (fun sum score => sum + score) scores start
    = start + fold_right Z.add 0 scores.
Proof.
  revert start. induction scores as [|x scores IH]; intros start; simpl.
  - lia.
  - rewrite IH. lia.
Qed.

Lemma categoryScores_length (Q : list Question) :
  length (categoryScores S (categoryQuestions Q C)) = question_count C Q.
Proof.
  unfold categoryScores, categoryQuestions. rewrite List.length_map.
  induction Q as [|q Q IH]; simpl; [reflexivity|].
  unfold belongs_to. destruct (categoryId q =? cat_id C); simpl; now rewrite IH.
Qed.

Lemma categoryScores_sum (Q : list Question) :
  fold_right Z.add 0 (categoryScores S (categoryQuestions Q C)) = answer_sum S C Q.
Proof.
  unfold categoryScores, categoryQuestions.
  induction Q as [|q Q IH]; simpl; [reflexivity|].
  unfold belongs_to. destruct (categoryId q =? cat_id C); simpl.
  - now rewrite IH, or_zero_lookup.
  - exact IH.
Qed.

Lemma categoryScore_unfold (Q : list Question) :
  categoryScore Q S C = js_div (answer_sum S C Q) (question_count C Q).
Proof.
  unfold categoryScore, average.
  rewrite reduce_sum, categoryScores_sum, categoryScores_length.
  reflexivity.
Qed.

Lemma answer_value_bounds (Q : list Question) (q : Question) :
  option_values_in_range Q -> answers_are_option_values S Q ->
  In q Q -> 0 <= answer_value S q <= 100.
Proof.
  intros Hrange Hwf Hq. unfold answer_value.
  destruct (answers S !! id q) as [v|] eqn:E; [|lia].
  destruct (Hwf q v Hq E) as (opt & Hopt & <-).
  exact (Hrange q opt Hq Hopt).
Qed.

Lemma answer_sum_bounds (Q : list Question) :
  (forall q, In q Q -> 0 <= answer_value S q <= 100) ->
  0 <= answer_sum S C Q <= 100 * Z.of_nat (question_count C Q).
Proof.
  induction Q as [|q Q IH]; intros Hb; simpl; [lia|].
  assert (Hq : 0 <= answer_value S q <= 100) by (apply Hb; now left).
  assert (HQ : 0 <= answer_sum S C Q <= 100 * Z.of_nat (question_count C Q))
    by (apply IH; intros q' Hq'; apply Hb; now right).
  destruct (belongs_to C q); [|exact HQ].
  rewrite Nat2Z.inj_succ. lia.
Qed.

End Aggregator.

Lemma Zpos_of_nat (n : nat) : (0 < n)%nat -> Z.pos (Pos.of_nat n) = Z.of_nat n.
Proof.
  destruct n as [|m]; [lia|]. intros _.
  rewrite <- Pos.of_nat_succ, Zpos_P_of_succ_nat, Nat2Z.inj_succ. reflexivity.
Qed.

Lemma quotient_in_range (x : Z) (n : nat) :
  (0 < n)%nat -> 0 <= x <= 100 * Z.of_nat n ->
  in_percent_range (JNum (x # Pos.of_nat n)).
Proof.
  intros Hn Hx. unfold in_percent_range, Qle; simpl.
  rewrite (Zpos_of_nat n Hn). lia.
Qed.

(** The aggregate in exact arithmetic: for a category with n > 0
    questions the exact mean is the sum over the category's questions of
    the submission's answer value (0 when the question id is absent)
    divided by n; it lies in [0, 100] when every option value does and the
    answer set holds values of the questions' options. *)
Theorem category_score_is_mean
    (S : FormDataType) (Q : list Question) (C : Category) :
  (0 < question_count C Q)%nat ->
  categoryScore Q S C
    = JNum (answer_sum S C Q # Pos.of_nat (question_count C Q)) /\
  (option_values_in_range Q -> answers_are_option_values S Q ->
     in_percent_range (categoryScore Q S C)).
Proof.
  intros Hn.
  assert (E : categoryScore Q S C
              = JNum (answer_sum S C Q # Pos.of_nat (question_count C Q))).
  { rewrite categoryScore_unfold. unfold js_div.
    destruct (question_count C Q); [lia | reflexivity]. }
  split; [exact E|].
  intros Hrange Hwf. rewrite E.
  apply quotient_in_range; [exact Hn|].
  apply answer_sum_bounds. intros q Hq.
  now apply (answer_value_bounds S Q q).
Qed.

Lemma sample_option_values_in_range : option_values_in_range sample_questions.
Proof.
  intros q opt [<-|[<-|[]]] Hopt; simpl in Hopt;
    destruct Hopt as [<-|[<-|[<-|[]]]]; simpl; lia.
Qed.

Lemma sample_answers_are_option_values :
  answers_are_option_values sample_form sample_questions.
Proof.
  intros q v [<-|[<-|[]]] Hv; vm_compute in Hv;
    injection Hv as <-; simpl.
  - eexists; split; [left; reflexivity | reflexivity].
  - eexists; split; [right; left; reflexivity | reflexivity].
Qed.

Lemma category_score_is_mean_witness :
  categoryScore sample_questions sample_form governance = JNum (120 # 2) /\
  in_percent_range (categoryScore sample_questions sample_form governance).
Proof.
  destruct (category_score_is_mean sample_form sample_questions governance)
    as [Hmean Hrange].
  - simpl. lia.
  - split.
    + rewrite Hmean. reflexivity.
    + apply Hrange.
      * exact sample_option_values_in_range.
      * exact sample_answers_are_option_values.
Defined.

(** The two scenarios of the specification: both questions answered, and
    the second one left unanswered. *)
Example scenario_both_answered :
  exists q, categoryScore sample_questions sample_form governance = JNum q /\
            (q == inject_Z 60)%Q.
Proof. eexists; split; reflexivity. Qed.

Example scenario_one_unanswered :
  exists q, categoryScore sample_questions sample_other governance = JNum q /\
            (q == inject_Z 40)%Q.
Proof. eexists; split; reflexivity. Qed.

(** C7: for a category that no question of the list belongs to, the
    aggregator divides 0 by 0 without any guard: the score is NaN, it is
    handed on as it is in the chart's data series, and it is outside
    [0, 100]. *)
Theorem empty_category_score_is_NaN
    (S : FormDataType) (Q : list Question) (C : Category) :
  categoryQuestions Q C = [] ->
  categoryScore Q S C = JNaN /\
  ~ in_percent_range (categoryScore Q S C) /\
  (forall categories lang,
      In C categories -> In JNaN (data (generateChartData Q categories lang S))).
Proof.
  intros Hnone.
  assert (E : categoryScore Q S C = JNaN).
  { unfold categoryScore. rewrite Hnone. reflexivity. }
  split; [exact E|]. split.
  - rewrite E. simpl. tauto.
  - intros categories lang Hin. simpl.
    rewrite <- E. now apply in_map.
Qed.

Lemma empty_category_score_is_NaN_witness :
  categoryQuestions sample_questions resilience = [] /\
  categoryScore sample_questions sample_form resilience = JNaN /\
  data (generateChartData sample_questions [governance; resilience] es sample_form)
    = [JNum (120 # 2); JNaN].
Proof.
  split; [reflexivity|]. split.
  - apply (empty_category_score_is_NaN sample_form sample_questions resilience).
    reflexivity.
  - reflexivity.
Defined.

(** ** [replace] on strings *)

Module JsStringFacts.
Import JsString.

Lemma append_nil (b : string) : EmptyString +:+ b = b.
Proof. reflexivity. Qed.

Lemma append_cons (x : ascii) (a b : string) :
  String x a +:+ b = String x (a +:+ b).
Proof. reflexivity. Qed.

Lemma append_assoc (a b c : string) : (a +:+ b) +:+ c = a +:+ (b +:+ c).
Proof.
  induction a as [|x a IH]; [reflexivity|].
  rewrite !append_cons. now rewrite IH.
Qed.

Lemma has_char_append (c : ascii) (a b : string) :
  has_char c (a +:+ b) = has_char c a || has_char c b.
Proof.
  induction a as [|x a IH]; [reflexivity|].
  rewrite append_cons. simpl. rewrite IH. now rewrite orb_assoc.
Qed.

Lemma split_at_first_eq (pat s : string) :
  split_at_first pat s =
  match strip_prefix pat s with
  | Some rest => Some (EmptyString, rest)
  | None =>
      match s with
      | EmptyString => None
      | String c s' =>
          match split_at_first pat s' with
          | Some (before, after) => Some (String c before, after)
          | None => None
          end
      end
  end.
Proof. destruct s; reflexivity. Qed.

Lemma strip_prefix_here (pat s : string) : strip_prefix pat (pat +:+ s) = Some s.
Proof.
  induction pat as [|a pat IH]; [reflexivity|].
  rewrite append_cons. simpl. now rewrite Ascii.eqb_refl.
Qed.

Lemma split_at_first_here (pat s : string) :
  split_at_first pat (pat +:+ s) = Some (EmptyString, s).
Proof. rewrite split_at_first_eq, strip_prefix_here. reflexivity. Qed.

(** Text without the pattern's first character is stepped over. *)
Lemma split_at_first_skip (c : ascii) (pat' a s : string) :
  has_char c a = false ->
  split_at_first (String c pat') (a +:+ s) =
  match split_at_first (String c pat') s with
  | Some (before, after) => Some (a +:+ before, after)
  | None => None
  end.
Proof.
  induction a as [|x a IH]; intros Hfree.
  - rewrite append_nil.
    destruct (split_at_first (String c pat') s) as [[b r]|]; reflexivity.
  - rewrite append_cons. simpl in Hfree |- *.
    apply orb_false_elim in Hfree as [Hx Ha].
    rewrite Hx, (IH Ha).
    destruct (split_at_first (String c pat') s) as [[b r]|]; reflexivity.
Qed.

Lemma split_at_first_absent (c : ascii) (pat' s : string) :
  has_char c s = false -> split_at_first (String c pat') s = None.
Proof.
  induction s as [|x s IH]; simpl; intros Hfree; [reflexivity|].
  apply orb_false_elim in Hfree as [Hx Hs].
  now rewrite Hx, (IH Hs).
Qed.

Lemma getSubstitution_other (matched before after : string) (c : ascii) (t : string) :
  Ascii.eqb c "$" = false ->
  getSubstitution matched before after (String c t)
    = String c (getSubstitution matched before after t).
Proof. intros Hc. cbn [getSubstitution]. now rewrite Hc. Qed.

Lemma getSubstitution_plain (matched before after template : string) :
  has_char "$" template = false ->
  getSubstitution matched before after template = template.
Proof.
  induction template as [|c t IH]; intros Hfree; [reflexivity|].
  cbn [has_char] in Hfree.
  apply orb_false_elim in Hfree as [Hc Ht].
  rewrite Ascii.eqb_sym in Hc.
  rewrite (getSubstitution_other _ _ _ _ _ Hc), (IH Ht). reflexivity.
Qed.

Lemma replace_absent (c : ascii) (pat' s replacement : string) :
  has_char c s = false -> replace s (String c pat') replacement = s.
Proof.
  intros Hfree. unfold replace. now rewrite split_at_first_absent.
Qed.

Lemma replace_here (pat s replacement : string) :
  has_char "$" replacement = false ->
  replace (pat +:+ s) pat replacement = replacement +:+ s.
Proof.
  intros Hrep. unfold replace. rewrite split_at_first_here. simpl.
  now rewrite getSubstitution_plain.
Qed.

Lemma replace_skip (c : ascii) (pat' a s replacement : string) :
  has_char c a = false ->
  has_char "$" replacement = false ->
  replace (a +:+ s) (String c pat') replacement
    = a +:+ replace s (String c pat') replacement.
Proof.
  intros Ha Hrep. unfold replace. rewrite (split_at_first_skip _ _ _ _ Ha).
  destruct (split_at_first (String c pat') s) as [[b r]|]; [|reflexivity].
  rewrite !getSubstitution_plain by exact Hrep.
  now rewrite append_assoc.
Qed.

(** A character that does not start the pattern is stepped over. *)
Lemma replace_step (x : ascii) (pat s replacement : string) :
  strip_prefix pat (String x s) = None ->
  has_char "$" replacement = false ->
  replace (String x s) pat replacement = String x (replace s pat replacement).
Proof.
  intros Hno Hrep. unfold replace.
  rewrite (split_at_first_eq pat (String x s)), Hno.
  destruct (split_at_first pat s) as [[b r]|]; [|reflexivity].
  rewrite !getSubstitution_plain by exact Hrep. reflexivity.
Qed.

End JsStringFacts.

(** ** Prompts and table rows *)

Section Templates.
Import JsString JsStringFacts.

Variable selectedForm : FormDataType.

Let p := providerName selectedForm.
Let e := financialEntityName selectedForm.

Lemma replace_provider_render (segs : list Segment) (v : string) :
  literals_brace_free segs ->
  has_char "$" v = false ->
  replace (render segs) providerToken v = render (fill_provider v segs).
Proof.
  intros Hlits Hv.
  induction Hlits as [|seg segs Hseg _ IH]; [reflexivity|].
  destruct seg as [a| |]; cbn [render fill_provider].
  - unfold providerToken in *. rewrite (replace_skip _ _ _ _ _ Hseg Hv).
    now rewrite IH.
  - now apply replace_here.
  - unfold financialEntityToken at 1. rewrite append_cons.
    rewrite replace_step by (reflexivity || exact Hv).
    unfold providerToken in *.
    rewrite replace_skip by (reflexivity || exact Hv).
    now rewrite IH.
Qed.

Lemma replace_entity_render (segs : list Segment) (v : string) :
  literals_brace_free segs ->
  has_char "$" v = false ->
  replace (render segs) financialEntityToken v = render (fill_entity v segs).
Proof.
  intros Hlits Hv.
  induction Hlits as [|seg segs Hseg _ IH]; [reflexivity|].
  destruct seg as [a| |]; cbn [render fill_entity].
  - unfold financialEntityToken in *. rewrite (replace_skip _ _ _ _ _ Hseg Hv).
    now rewrite IH.
  - unfold providerToken at 1. rewrite append_cons.
    rewrite replace_step by (reflexivity || exact Hv).
    unfold financialEntityToken in *.
    rewrite replace_skip by (reflexivity || exact Hv).
    now rewrite IH.
  - now apply replace_here.
Qed.

Lemma fill_provider_brace_free (segs : list Segment) (v : string) :
  literals_brace_free segs -> brace_free v ->
  literals_brace_free (fill_provider v segs).
Proof.
  intros Hlits Hv.
  induction Hlits as [|seg segs Hseg Hrest IH]; [constructor|].
  destruct seg; cbn [fill_provider]; constructor; assumption.
Qed.

Lemma render_no_slots (segs : list Segment) :
  provider_slots segs = O -> entity_slots segs = O ->
  render segs = instantiate selectedForm segs.
Proof.
  induction segs as [|[a| |] segs IH];
    cbn [provider_slots entity_slots render instantiate];
    intros Hp He; try discriminate; [reflexivity|].
  now rewrite IH.
Qed.

Lemma render_fill_entity (segs : list Segment) :
  provider_slots segs = O -> (entity_slots segs <= 1)%nat ->
  render (fill_entity e segs) = instantiate selectedForm segs.
Proof.
  induction segs as [|[a| |] segs IH];
    cbn [provider_slots entity_slots fill_entity render instantiate];
    intros Hp He; try discriminate; [reflexivity| |].
  - now rewrite IH.
  - rewrite render_no_slots by lia. reflexivity.
Qed.

Lemma render_fill_provider (segs : list Segment) :
  entity_slots segs = O -> (provider_slots segs <= 1)%nat ->
  render (fill_provider p segs) = instantiate selectedForm segs.
Proof.
  induction segs as [|[a| |] segs IH];
    cbn [provider_slots entity_slots fill_provider render instantiate];
    intros He Hp; try discriminate; [reflexivity| |].
  - now rewrite IH.
  - rewrite render_no_slots by lia. reflexivity.
Qed.

Lemma render_fill_both (segs : list Segment) :
  (provider_slots segs <= 1)%nat -> (entity_slots segs <= 1)%nat ->
  render (fill_entity e (fill_provider p segs)) = instantiate selectedForm segs.
Proof.
  induction segs as [|[a| |] segs IH];
    cbn [provider_slots entity_slots fill_provider fill_entity render instantiate];
    intros Hp He; [reflexivity| | |].
  - now rewrite IH.
  - rewrite render_fill_entity by lia. reflexivity.
  - rewrite render_fill_provider by lia. reflexivity.
Qed.

Lemma instantiate_brace_free (segs : list Segment) :
  literals_brace_free segs -> brace_free p -> brace_free e ->
  brace_free (instantiate selectedForm segs).
Proof.
  unfold brace_free. intros Hlits Hp He.
  induction Hlits as [|seg segs Hseg _ IH]; [reflexivity|].
  destruct seg; cbn [instantiate]; rewrite has_char_append, IH, orb_false_r;
    assumption.
Qed.

Lemma brace_free_no_token (cell : string) :
  brace_free cell -> no_token_remains cell.
Proof.
  unfold brace_free, no_token_remains, includes, providerToken,
    financialEntityToken.
  intros H. now rewrite !split_at_first_absent.
Qed.

End Templates.

(** C6 (amended): when the prompt is brace-free literal text in which each
    of the two tokens occurs at most once, and the submission's provider
    and financial-entity names contain neither an opening brace nor a
    dollar sign, the prompt cell of the row is the prompt with each token
    replaced by the submission's field value, and no token remains. *)
Theorem prompt_tokens_substituted
    (lang : Language) (selectedForm : FormDataType) (q : Question)
    (segs : list Segment) :
  localized (text q) lang = render segs ->
  literals_brace_free segs ->
  (provider_slots segs <= 1)%nat ->
  (entity_slots segs <= 1)%nat ->
  plain (providerName selectedForm) ->
  plain (financialEntityName selectedForm) ->
  promptCell lang selectedForm q = instantiate selectedForm segs /\
  no_token_remains (promptCell lang selectedForm q) /\
  exists answer observation,
    tableRow lang selectedForm q
      = [instantiate selectedForm segs; answer; observation].
Proof.
  intros Htext Hlits Hp He [Hpb Hpd] [Heb Hed].
  assert (Hcell : promptCell lang selectedForm q = instantiate selectedForm segs).
  { unfold promptCell. rewrite Htext.
    rewrite replace_provider_render by assumption.
    rewrite replace_entity_render
      by (try apply fill_provider_brace_free; assumption).
    now apply render_fill_both. }
  split; [exact Hcell|]. split.
  - rewrite Hcell. apply brace_free_no_token.
    now apply instantiate_brace_free.
  - unfold tableRow. rewrite Hcell. eauto.
Qed.

Lemma prompt_tokens_substituted_witness :
  promptCell es sample_form question1 = "¿Acme informa a Banco Uno?" /\
  no_token_remains (promptCell es sample_form question1).
Proof.
  destruct (prompt_tokens_substituted es sample_form question1
              [Lit "¿"; ProviderSlot; Lit " informa a "; EntitySlot; Lit "?"])
    as (Hcell & Hnone & _).
  - reflexivity.
  - repeat constructor.
  - simpl. lia.
  - simpl. lia.
  - split; reflexivity.
  - split; reflexivity.
  - split; [rewrite Hcell; reflexivity | exact Hnone].
Defined.

(** C6 as the specification words it fails: [replace] with a string
    pattern fills the first occurrence only, so a prompt that names the
    provider twice keeps its second token. *)
Lemma token_remains_counterexample :
  promptCell es sample_form question3
    = "¿Acme audita a los subcontratistas de {providerName}?" /\
  JsString.includes (promptCell es sample_form question3) providerToken = true /\
  ~ no_token_remains (promptCell es sample_form question3).
Proof.
  split; [reflexivity|]. split; [reflexivity|].
  intros [H _]. vm_compute in H. discriminate H.
Qed.

(** Further limits of the substitution: a replacement pattern in the
    provider name is expanded, here [$&] to the matched token itself. *)
Example replacement_pattern_in_name :
  JsString.replace "Proveedor: {providerName}" providerToken "$&"
    = "Proveedor: {providerName}".
Proof. reflexivity. Qed.

Lemma find_none_when_no_match (answer : option Z) (opts : list AnswerOption) :
  (forall opt, In opt opts -> answer <> Some (value opt)) ->
  List.find (value_is answer) opts = None.
Proof.
  intros Hno. induction opts as [|opt opts IH]; [reflexivity|].
  simpl. destruct (value_is answer opt) eqn:E.
  - exfalso. apply (Hno opt); [now left|].
    unfold value_is in E. destruct answer as [v|]; [|discriminate].
    apply Z.eqb_eq in E. now rewrite E.
  - apply IH. intros o Ho. apply Hno. now right.
Qed.

(** C10: row construction is total.  There is one row of three cells per
    question; the answer-label cell is empty when the submission records
    no answer for the question or records a value that is no option of the
    question, and the observation cell is empty when the submission has no
    observation for the question. *)
Theorem table_row_total
    (questions : list Question) (lang : Language)
    (selectedForm : FormDataType) (q : Question) :
  length (tableData questions lang selectedForm) = length questions /\
  tableRow lang selectedForm q
    = [promptCell lang selectedForm q; answerCell lang selectedForm q;
       observationCell selectedForm q] /\
  (answers selectedForm !! id q = None ->
     answerCell lang selectedForm q = EmptyString) /\
  ((forall opt, In opt (options q) ->
       answers selectedForm !! id q <> Some (value opt)) ->
     answerCell lang selectedForm q = EmptyString) /\
  (observations selectedForm !! id q = None ->
     observationCell selectedForm q = EmptyString).
Proof.
  split; [apply List.length_map|]. split; [reflexivity|].
  assert (Hno : (forall opt, In opt (options q) ->
                   answers selectedForm !! id q <> Some (value opt)) ->
                answerCell lang selectedForm q = EmptyString).
  { intros H. unfold answerCell.
    now rewrite (find_none_when_no_match _ _ H). }
  repeat split.
  - intros Hmissing. apply Hno. intros opt _. now rewrite Hmissing.
  - exact Hno.
  - intros Hmissing. unfold observationCell. now rewrite Hmissing.
Qed.

Lemma table_row_total_witness :
  tableData sample_questions es sample_other
    = [ ["¿Tercero informa a Banco Tres?"; "Sí"; ""];
        ["¿Existe un registro de incidentes?"; ""; ""] ] /\
  answerCell es sample_other question2 = EmptyString /\
  observationCell sample_other question2 = EmptyString /\
  tableRow es sample_stray question1
    = ["¿Cuarto informa a Banco Cuatro?"; ""; "pendiente"] /\
  answerCell es sample_stray question1 = EmptyString.
Proof.
  destruct (table_row_total sample_questions es sample_other question2)
    as (_ & _ & Hanswer & _ & Hobservation).
  destruct (table_row_total sample_questions es sample_stray question1)
    as (_ & _ & _ & Hstray & _).
  split; [reflexivity|]. split; [|split; [|split; [reflexivity|]]].
  - apply Hanswer. reflexivity.
  - apply Hobservation. reflexivity.
  - apply Hstray.
    intros opt [<-|[<-|[<-|[]]]]; vm_compute; discriminate.
Defined.

(** * Further properties of the components *)

(** ** The store: how the operations compose *)

Lemma deleteSubmission_app (k : string) (a b : list FormDataType) :
  deleteSubmission k (a ++ b) = (deleteSubmission k a ++ deleteSubmission k b)%list.
Proof. unfold deleteSubmission. apply List.filter_app. Qed.

Lemma deleteSubmission_own_key (s : FormDataType) :
  deleteSubmission (date s) [s] = [].
Proof. unfold deleteSubmission. simpl. now rewrite String.eqb_refl. Qed.

Lemma updateSubmission_dates (s : FormDataType) (fd : list FormDataType) :
  List.map date (updateSubmission s fd) = List.map date fd.
Proof.
  unfold updateSubmission. rewrite List.map_map. apply List.map_ext.
  intros g. destruct (String.eqb_spec (date g) (date s)) as [E|_];
    [now rewrite E | reflexivity].
Qed.

(** X1: an update and a delete can be applied in either order: the
    update keeps every identity key, so the delete removes the same
    positions before and after it. *)
Theorem update_delete_commute (s : FormDataType) (k : string) (st : AppState) :
  handleDeleteForm k (handleUpdateForm s st)
    = handleUpdateForm s (handleDeleteForm k st).
Proof.
  unfold handleDeleteForm, handleUpdateForm.
  rewrite !formData_setFormData, !setFormData_twice. f_equal.
  unfold deleteSubmission, updateSubmission.
  induction (formData st) as [|g fd IH]; [reflexivity|]. simpl.
  destruct (String.eqb (date g) (date s)) eqn:Es.
  - apply String.eqb_eq in Es. rewrite <- Es.
    destruct (String.eqb (date g) k); simpl.
    + rewrite Es. exact IH.
    + rewrite String.eqb_refl, Es. now rewrite IH.
  - destruct (String.eqb (date g) k); simpl; [exact IH|].
    now rewrite Es, IH.
Qed.

(** X2: an update never adds, removes or reorders submissions: the
    sequence of identity keys is the same before and after, and a
    submission with another key stays at its position unchanged. *)
Theorem update_preserves_keys (s : FormDataType) (st : AppState) :
  List.map date (formData (handleUpdateForm s st)) = List.map date (formData st) /\
  length (formData (handleUpdateForm s st)) = length (formData st) /\
  (forall (i : nat) f, formData st !! i = Some f -> date f <> date s ->
     formData (handleUpdateForm s st) !! i = Some f).
Proof.
  unfold handleUpdateForm. rewrite formData_setFormData. repeat split.
  - apply updateSubmission_dates.
  - apply updateSubmission_length.
  - intros i f. apply updateSubmission_miss.
Qed.

(** X3: deleting by the creation timestamp of a submission that was just
    submitted removes it together with every older submission carrying
    the same timestamp; when the timestamp was new, the list is the one
    from before the submit. *)
Theorem submit_then_delete
    (toLocaleDateString : string -> string) (d : FormDataType) (w : World) :
  let after := app (snd (handleFormSubmit toLocaleDateString d w)) in
  formData (handleDeleteForm (date d) after)
    = deleteSubmission (date d) (formData (app w)) /\
  (unknown_key (date d) (formData (app w)) ->
     formData (handleDeleteForm (date d) after) = formData (app w)).
Proof.
  intros after. subst after.
  assert (E : formData (handleDeleteForm (date d)
                (app (snd (handleFormSubmit toLocaleDateString d w))))
              = deleteSubmission (date d) (formData (app w))).
  { unfold handleDeleteForm. rewrite formData_setFormData.
    destruct (handleFormSubmit_total toLocaleDateString d w) as [_ ->].
    rewrite deleteSubmission_app, deleteSubmission_own_key.
    apply app_nil_r. }
  split; [exact E|].
  intros Hnew. rewrite E. now apply deleteSubmission_unknown.
Qed.

Lemma submit_then_delete_witness :
  formData (handleDeleteForm (date sample_form)
    (app (snd (handleFormSubmit (fun x => x) sample_form
                 (sample_world (fun _ => Resolved) [sample_other])))))
  = [sample_other].
Proof.
  apply (submit_then_delete (fun x => x) sample_form
           (sample_world (fun _ => Resolved) [sample_other])).
  repeat constructor. discriminate.
Defined.



(** ** The submit handler: requests, view and interleaving *)

Section DeliveryProperties.

Variable toLocaleDateString : string -> string.

Lemma run_app (evs evs' : list Event) (s : Session) :
  run toLocaleDateString (evs ++ evs') s
    = run toLocaleDateString evs' (run toLocaleDateString evs s).
Proof. unfold run. apply fold_left_app. Qed.

Lemma fails_not_succeeds (w : World) : delivery_fails w -> ~ delivery_succeeds w.
Proof.
  intros [[e H]|[_ [e H]]] [H1 H2]; congruence.
Qed.

Lemma user_event_keeps_delivery (ev : Event) (s : Session) (n : nat) (dl : Delivery) :
  user_event ev -> inflight s !! n = Some dl -> inflight (step toLocaleDateString s ev) !! n = Some dl.
Proof.
  intros Hev Hn. destruct ev; simpl in *; try exact Hn; [|contradiction].
  now apply lookup_app_l_Some.
Qed.

Lemma user_events_keep_delivery (evs : list Event) (s : Session) (n : nat) (dl : Delivery) :
  Forall user_event evs -> inflight s !! n = Some dl ->
  inflight (run toLocaleDateString evs s) !! n = Some dl.
Proof.
  intros Hevs. revert s. induction Hevs as [|ev evs Hev _ IH]; intros s Hn.
  - exact Hn.
  - simpl. apply IH. now apply user_event_keeps_delivery.
Qed.

Lemma step_keeps_current_draft (ev : Event) (s : Session) :
  is_Some (currentDraft (session_app s)) ->
  is_Some (currentDraft (session_app (step toLocaleDateString s ev))).
Proof.
  intros Hd. destruct ev; simpl; try exact Hd.
  - eexists; reflexivity.
  - unfold submit_resume.
    destruct (inflight s !! n) as [dl|]; [|exact Hd].
    destruct r; [destruct (awaiting dl)|]; exact Hd.
Qed.

Lemma respond_keeps_data (n : nat) (r : Response) (s : Session) :
  formData (session_app (step toLocaleDateString s (Respond n r))) = formData (session_app s) /\
  draftList (session_app (step toLocaleDateString s (Respond n r))) = draftList (session_app s).
Proof.
  simpl. unfold submit_resume.
  destruct (inflight s !! n) as [dl|]; [|split; reflexivity].
  destruct r; [destruct (awaiting dl)|]; split; reflexivity.
Qed.

End DeliveryProperties.

(** X5: in every run of the session, whatever the order of user events
    and answers of the endpoint, the current draft is never cleared: once
    a draft has been continued, no handler (deleting that draft, starting
    a new questionnaire and submitting included) sets it back to none. *)
Theorem current_draft_never_cleared
    (toLocaleDateString : string -> string) (evs : list Event) (s : Session) :
  is_Some (currentDraft (session_app s)) ->
  is_Some (currentDraft (session_app (run toLocaleDateString evs s))).
Proof.
  revert s. induction evs as [|ev evs IH]; intros s Hd; [exact Hd|].
  simpl. apply IH. now apply step_keeps_current_draft.
Qed.

Lemma current_draft_never_cleared_witness :
  currentDraft (session_app
    (run (fun x => x)
       [DeleteDraft (date sample_form);
        StartQuestionnaire "Nuevo" "Banco Cinco" "eva";
        Submit sample_other; Respond 0 Resolved; Respond 0 Resolved]
       (on_app (handleContinueDraft sample_form)
          (session_of (sample_world (fun _ => Resolved) [])))))
  = Some sample_form /\
  is_Some (currentDraft (session_app
    (run (fun x => x)
       [DeleteDraft (date sample_form);
        StartQuestionnaire "Nuevo" "Banco Cinco" "eva";
        Submit sample_other; Respond 0 Resolved; Respond 0 Resolved]
       (on_app (handleContinueDraft sample_form)
          (session_of (sample_world (fun _ => Resolved) [])))))).
Proof.
  split; [reflexivity|].
  apply (current_draft_never_cleared (fun x => x)).
  eexists; reflexivity.
Defined.

(** X6: an answer of the endpoint, whenever it arrives and whatever it
    is, changes neither the submission list nor the draft list: a run made
    of answers only leaves both as they were. *)
Theorem answers_keep_submissions
    (toLocaleDateString : string -> string) (evs : list Event) (s : Session) :
  Forall (fun ev => ~ user_event ev) evs ->
  formData (session_app (run toLocaleDateString evs s)) = formData (session_app s) /\
  draftList (session_app (run toLocaleDateString evs s)) = draftList (session_app s).
Proof.
  intros Hevs. revert s. induction Hevs as [|ev evs Hev _ IH]; intros s.
  - split; reflexivity.
  - destruct ev; try (exfalso; apply Hev; exact I).
    change (run toLocaleDateString (Respond n r :: evs) s)
      with (run toLocaleDateString evs (step toLocaleDateString s (Respond n r))).
    destruct (IH (step toLocaleDateString s (Respond n r))) as [-> ->].
    apply respond_keeps_data.
Qed.

Lemma answers_keep_submissions_witness :
  formData (session_app
    (run (fun x => x) [Respond 0 Resolved; Respond 0 (Rejected "timeout")]
       (submit_start (fun x => x) sample_form
          (session_of (sample_world (fun _ => Resolved) [sample_other])))))
  = [sample_other; sample_form].
Proof.
  apply (answers_keep_submissions (fun x => x)
           [Respond 0 Resolved; Respond 0 (Rejected "timeout")]
           (submit_start (fun x => x) sample_form
              (session_of (sample_world (fun _ => Resolved) [sample_other])))).
  repeat constructor; intros H; exact H.
Defined.

(** X7: when the answers to a submit arrive before any other event, the
    event-by-event run ends in the state the handler run to completion
    gives: same session state, same console, same requests, nothing left
    in flight. *)
Theorem uninterrupted_submit_is_handler
    (toLocaleDateString : string -> string) (d : FormDataType) (w : World) :
  run toLocaleDateString (uninterrupted_submit d w) (session_of w)
    = session_of (snd (handleFormSubmit toLocaleDateString d w)).
Proof.
  unfold uninterrupted_submit.
  destruct (network w (length (outbox w))) as [|e1] eqn:E1.
  - destruct (network w (S (length (outbox w)))) as [|e2] eqn:E2.
    + rewrite (handleFormSubmit_delivered toLocaleDateString d w (conj E1 E2)).
      reflexivity.
    + rewrite (handleFormSubmit_second_rejected toLocaleDateString d w e2 E1 E2).
      reflexivity.
  - rewrite (handleFormSubmit_first_rejected toLocaleDateString d w e1 E1).
    reflexivity.
Qed.

(** X8: a delivery that succeeds late still switches the view to the
    report.  After a submit, with no other delivery in flight, any
    sequence of user events (navigation, drafts, edits, further submits)
    followed by the two positive answers ends on the report view, and the
    document of that submission is the last request sent. *)
Theorem late_success_switches_to_report
    (toLocaleDateString : string -> string) (d : FormDataType)
    (evs : list Event) (s : Session) :
  inflight s = [] ->
  Forall user_event evs ->
  let s' := run toLocaleDateString
              (Submit d :: evs ++ [Respond 0 Resolved; Respond 0 Resolved]) s in
  currentView (session_app s') = report_view /\
  exists sent, session_outbox s' =
    (sent ++ [SendDocument TELEGRAM_CHAT_ID (generatePDF toLocaleDateString d)
                "informe_dora.pdf"])%list.
Proof.
  intros Hnone Hevs s'. subst s'.
  change (run toLocaleDateString (Submit d :: evs ++ [Respond 0 Resolved; Respond 0 Resolved]) s)
    with (run toLocaleDateString (evs ++ [Respond 0 Resolved; Respond 0 Resolved])
            (submit_start toLocaleDateString d s)).
  rewrite run_app.
  set (s1 := run toLocaleDateString evs (submit_start toLocaleDateString d s)).
  assert (H0 : inflight s1 !! 0%nat
               = Some {| delivery_data := d; awaiting := AwaitingMessage |}).
  { apply user_events_keep_delivery; [exact Hevs|].
    simpl. rewrite Hnone. reflexivity. }
  simpl. unfold submit_resume at 2. rewrite H0. simpl.
  unfold submit_resume. simpl.
  destruct (inflight s1) as [|dl rest]; [discriminate H0|].
  injection H0 as ->. simpl. split; [reflexivity|]. eexists. reflexivity.
Qed.

Lemma late_success_switches_to_report_witness :
  currentView (session_app
    (run (fun x => x)
       (Submit sample_form ::
        [Navigate home_view; SaveDraft sample_other; Navigate drafts_view] ++
        [Respond 0 Resolved; Respond 0 Resolved])
       (session_of (sample_world (fun _ => Resolved) []))))
  = report_view.
Proof.
  apply (late_success_switches_to_report (fun x => x) sample_form
           [Navigate home_view; SaveDraft sample_other; Navigate drafts_view]
           (session_of (sample_world (fun _ => Resolved) []))).
  - reflexivity.
  - repeat constructor.
Defined.

(** X9: the text message is always the first request of a submit, and
    the document is uploaded only after the endpoint accepted the message:
    a rejected message is the only request sent. *)
Theorem document_follows_accepted_message
    (toLocaleDateString : string -> string) (d : FormDataType) (w : World) :
  outbox (snd (handleFormSubmit toLocaleDateString d w)) =
    (outbox w ++
     match network w (length (outbox w)) with
     | Rejected _ =>
         [SendMessage TELEGRAM_CHAT_ID (summaryMessage toLocaleDateString d)]
     | Resolved =>
         [SendMessage TELEGRAM_CHAT_ID (summaryMessage toLocaleDateString d);
          SendDocument TELEGRAM_CHAT_ID (generatePDF toLocaleDateString d)
            "informe_dora.pdf"]
     end)%list.
Proof.
  destruct (network w (length (outbox w))) as [|e1] eqn:E1.
  - destruct (network w (S (length (outbox w)))) as [|e2] eqn:E2.
    + rewrite (handleFormSubmit_delivered toLocaleDateString d w (conj E1 E2)).
      simpl. now rewrite <- app_assoc.
    + rewrite (handleFormSubmit_second_rejected toLocaleDateString d w e2 E1 E2).
      simpl. now rewrite <- app_assoc.
  - now rewrite (handleFormSubmit_first_rejected toLocaleDateString d w e1 E1).
Qed.

(** X10: a submit made from another view ends on the report view exactly
    when both requests were accepted; otherwise the view is the one the
    submit was made from. *)
Theorem report_view_iff_delivered
    (toLocaleDateString : string -> string) (d : FormDataType) (w : World) :
  currentView (app w) <> report_view ->
  (currentView (app (snd (handleFormSubmit toLocaleDateString d w))) = report_view
     <-> delivery_succeeds w) /\
  (~ delivery_succeeds w ->
     currentView (app (snd (handleFormSubmit toLocaleDateString d w)))
       = currentView (app w)).
Proof.
  intros Hview.
  destruct (delivery_outcomes w) as [Hfail|Hok].
  - assert (Hsame : currentView (app (snd (handleFormSubmit toLocaleDateString d w)))
                    = currentView (app w)).
    { destruct Hfail as [[e H]|[H1 [e H2]]].
      - now rewrite (handleFormSubmit_first_rejected _ _ _ _ H).
      - now rewrite (handleFormSubmit_second_rejected _ _ _ _ H1 H2). }
    split; [|intros _; exact Hsame].
    rewrite Hsame. split; [intros H; contradiction|].
    intros Hok. exfalso. exact (fails_not_succeeds w Hfail Hok).
  - rewrite (handleFormSubmit_delivered _ _ _ Hok). simpl.
    split; [tauto | intros Hno; contradiction].
Qed.

Lemma report_view_iff_delivered_witness :
  currentView (app (snd (handleFormSubmit (fun x => x) sample_form
                           (sample_world (fun _ => Resolved) [])))) = report_view /\
  currentView (app (snd (handleFormSubmit (fun x => x) sample_form
                           (sample_world (fun _ => Rejected "down") [])))) = form_view.
Proof.
  split.
  - apply (report_view_iff_delivered (fun x => x) sample_form
             (sample_world (fun _ => Resolved) [])).
    + discriminate.
    + split; reflexivity.
  - apply (report_view_iff_delivered (fun x => x) sample_form
             (sample_world (fun _ => Rejected "down") [])).
    + discriminate.
    + intros [H _]. discriminate H.
Defined.

(** ** The saved-forms view: selection, editing and the chart *)

Lemma withEdits_loaded (f : FormDataType) (i : nat) (b : bool) :
  withEdits f {| selectedFormIndex := Some i; editedAnswers := answers f;
                 editedObservations := observations f; isEditing := b |} = f.
Proof. destruct f; reflexivity. Qed.

Lemma updateSubmission_self (fd : list FormDataType) (i : nat) (f : FormDataType) :
  fd !! i = Some f -> NoDup (List.map date fd) -> updateSubmission f fd = fd.
Proof.
  intros Hi Hdistinct. apply list_eq. intros j.
  rewrite updateSubmission_lookup.
  destruct (fd !! j) as [g|] eqn:Hj; [|reflexivity]. simpl.
  destruct (String.eqb_spec (date g) (date f)) as [E|_]; [|reflexivity].
  assert (Hij : i = j).
  { apply (NoDup_lookup (List.map date fd) i j (date f) Hdistinct).
    - change (List.map date fd) with (date <$> fd).
      now rewrite list_lookup_fmap, Hi.
    - change (List.map date fd) with (date <$> fd).
      now rewrite list_lookup_fmap, Hj, <- E. }
  subst j. congruence.
Qed.

Lemma deleteSubmission_shorter (fd : list FormDataType) (f : FormDataType) :
  In f fd -> (length (deleteSubmission (date f) fd) < length fd)%nat.
Proof.
  unfold deleteSubmission. induction fd as [|g fd IH]; intros Hin; [destruct Hin|].
  simpl. destruct Hin as [->|Hin].
  - rewrite String.eqb_refl. simpl.
    pose proof (List.filter_length_le
                  (fun stored => negb (String.eqb (date stored) (date f))) fd).
    lia.
  - specialize (IH Hin).
    destruct (String.eqb (date g) (date f)); simpl; lia.
Qed.

Lemma array_map_total {A B} (g : A -> B) (l : list A) :
  array_map (fun x => Normal (g x)) l = Normal (List.map g l).
Proof.
  induction l as [|x l IH]; simpl; [reflexivity | now rewrite IH].
Qed.

Lemma array_map_ext {A B} (f g : A -> Completion B) (l : list A) :
  (forall x, f x = g x) -> array_map f l = array_map g l.
Proof.
  intros Hfg. induction l as [|x l IH]; simpl; [reflexivity|].
  now rewrite Hfg, IH.
Qed.

Lemma scores_of_undefined (qs : list Question) :
  array_map (fun q => and_then (answers_of None)
                        (fun a => Normal (or_zero (a !! id q)))) qs
  = match qs with [] => Normal [] | _ :: _ => Throw typeError end.
Proof. destruct qs; reflexivity. Qed.

Lemma series_of_undefined (questions : list Question) (categories : list Category) :
  array_map
    (fun category =>
       and_then
         (array_map (fun q => and_then (answers_of None)
                                (fun a => Normal (or_zero (a !! id q))))
            (categoryQuestions questions category))
         (fun scores => Normal (average scores)))
    categories
  = if some_category_has_questions questions categories
    then Throw typeError
    else Normal (List.map (fun _ => JNaN) categories).
Proof.
  unfold some_category_has_questions.
  induction categories as [|c cats IH]; [reflexivity|].
  cbn [array_map existsb List.map]. rewrite scores_of_undefined.
  destruct (categoryQuestions questions c); [|reflexivity].
  rewrite IH.
  destruct (existsb _ cats); reflexivity.
Qed.

Lemma generateChartDataAt_defined (questions : list Question)
    (categories : list Category) (lang : Language) (f : FormDataType) :
  generateChartDataAt questions categories lang (Some f)
    = Normal (generateChartData questions categories lang f).
Proof.
  unfold generateChartDataAt, generateChartData.
  rewrite (array_map_ext _ (fun category => Normal (categoryScore questions f category))).
  - now rewrite array_map_total.
  - intros c. simpl. now rewrite array_map_total.
Qed.

(** X11: selecting a submission and saving without an edit changes
    nothing when the stored creation timestamps are pairwise distinct. *)
Theorem select_then_save_changes_nothing
    (st : AppState) (sf : SavedFormsState) (i : nat) (f : FormDataType) :
  formData st !! i = Some f ->
  NoDup (List.map date (formData st)) ->
  snd (handleSaveChanges (snd (handleSelectForm i (formData st) sf)) st) = st.
Proof.
  intros Hi Hdistinct.
  unfold handleSelectForm. rewrite Hi. unfold handleSaveChanges. simpl. rewrite Hi.
  simpl. rewrite withEdits_loaded. unfold handleUpdateForm.
  rewrite (updateSubmission_self _ _ _ Hi Hdistinct). apply setFormData_same.
Qed.

Lemma select_then_save_changes_nothing_witness :
  snd (handleSaveChanges
         (snd (handleSelectForm 1 [sample_other; sample_form]
                 {| selectedFormIndex := None; editedAnswers := ∅;
                    editedObservations := ∅; isEditing := false |}))
         (sample_state [sample_other; sample_form]))
  = sample_state [sample_other; sample_form].
Proof.
  apply (select_then_save_changes_nothing
           (sample_state [sample_other; sample_form]) _ 1 sample_form).
  - reflexivity.
  - simpl. repeat (apply NoDup_cons_2 || apply NoDup_nil_2);
      intros H; apply list_elem_of_In in H; simpl in H; intuition discriminate.
Defined.

(** With a shared timestamp the same two clicks overwrite the twin. *)
Example select_then_save_overwrites_twin :
  formData (snd (handleSaveChanges
                   (snd (handleSelectForm 0 [sample_form; sample_twin]
                           {| selectedFormIndex := None; editedAnswers := ∅;
                              editedObservations := ∅; isEditing := false |}))
                   (sample_state [sample_form; sample_twin])))
  = [sample_form; sample_form].
Proof. reflexivity. Qed.

(** X12: cancelling the edit mode does not discard the edits: an answer
    changed before the cancel is still in the edit buffer when edit mode
    is entered again, and the next save stores it. *)
Theorem cancelled_edit_is_still_saved
    (st : AppState) (sf : SavedFormsState) (i : nat) (f : FormDataType)
    (questionId v : Z) :
  selectedFormIndex sf = Some i ->
  formData st !! i = Some f ->
  let resumed := handleEditToggle (handleEditToggle (handleAnswerChange questionId v sf)) in
  exists stored,
    formData (snd (handleSaveChanges resumed st)) !! i = Some stored /\
    answers stored = <[questionId := v]> (editedAnswers sf) /\
    answers stored !! questionId = Some v.
Proof.
  intros Hsel Hi resumed.
  exists (withEdits f resumed). split.
  - apply handleSaveChanges_lookup; [exact Hsel | exact Hi].
  - split; [reflexivity|]. simpl. apply lookup_insert_eq.
Qed.

Lemma cancelled_edit_is_still_saved_witness :
  exists stored,
    formData (snd (handleSaveChanges
      (handleEditToggle (handleEditToggle (handleAnswerChange 2 0
         {| selectedFormIndex := Some 0%nat; editedAnswers := answers sample_form;
            editedObservations := observations sample_form; isEditing := true |})))
      (sample_state [sample_form]))) !! 0%nat = Some stored /\
    answers stored = <[2 := 0]> (answers sample_form) /\
    answers stored !! 2 = Some 0.
Proof.
  apply (cancelled_edit_is_still_saved (sample_state [sample_form])
           {| selectedFormIndex := Some 0%nat; editedAnswers := answers sample_form;
              editedObservations := observations sample_form; isEditing := true |}
           0 sample_form 2 0); reflexivity.
Defined.

(** X13: saving never adds, removes or reorders submissions, with or
    without a selection and for an index past the end as well: the
    sequence of creation timestamps is the same before and after, the rest
    of the session state is untouched, and the selection and the edit
    buffers of the view are kept. *)
Theorem save_changes_preserves_keys (sf : SavedFormsState) (st : AppState) :
  List.map date (formData (snd (handleSaveChanges sf st)))
    = List.map date (formData st) /\
  setFormData (formData st) (snd (handleSaveChanges sf st)) = st /\
  selectedFormIndex (fst (handleSaveChanges sf st)) = selectedFormIndex sf /\
  editedAnswers (fst (handleSaveChanges sf st)) = editedAnswers sf /\
  editedObservations (fst (handleSaveChanges sf st)) = editedObservations sf.
Proof.
  unfold handleSaveChanges.
  destruct (selectedFormIndex sf) as [i|] eqn:Hsel.
  - destruct (formData st !! i) as [f|];
      cbn [fst snd setIsEditing selectedFormIndex editedAnswers editedObservations];
      unfold handleUpdateForm;
      rewrite formData_setFormData, setFormData_twice, setFormData_same, Hsel.
    + rewrite updateSubmission_dates. repeat split.
    + repeat split.
  - cbn [fst snd]. rewrite setFormData_same, Hsel. repeat split.
Qed.

(** X14: deleting the selected submission when it is the last of the
    list leaves the selection index past the end of the new list, and the
    chart of the re-rendered detail pane throws a TypeError as soon as
    some category has a question. *)
Theorem delete_last_selected_breaks_chart
    (questions : list Question) (categories : list Category) (lang : Language)
    (st : AppState) (sf : SavedFormsState) (i : nat) (f : FormDataType) :
  selectedFormIndex sf = Some i ->
  formData st !! i = Some f ->
  Datatypes.S i = length (formData st) ->
  some_category_has_questions questions categories = true ->
  exists st',
    deleteSelected i st = Normal st' /\
    formData st' !! i = None /\
    savedFormsChart questions categories lang (formData st') sf
      = Some (Throw typeError).
Proof.
  intros Hsel Hi Hlast Hq.
  exists (handleDeleteForm (date f) st).
  assert (Hgone : formData (handleDeleteForm (date f) st) !! i = None).
  { apply lookup_ge_None. unfold handleDeleteForm. rewrite formData_setFormData.
    assert (Hin : In f (formData st)).
    { apply list_elem_of_In, list_elem_of_lookup. eauto. }
    pose proof (deleteSubmission_shorter _ _ Hin). lia. }
  split; [unfold deleteSelected; now rewrite Hi|].
  split; [exact Hgone|].
  unfold savedFormsChart. rewrite Hsel, Hgone.
  unfold generateChartDataAt. rewrite series_of_undefined, Hq. reflexivity.
Qed.

Lemma delete_last_selected_breaks_chart_witness :
  exists st',
    deleteSelected 1 (sample_state [sample_other; sample_form]) = Normal st' /\
    formData st' !! 1%nat = None /\
    savedFormsChart sample_questions [governance; resilience] es (formData st')
      {| selectedFormIndex := Some 1%nat; editedAnswers := ∅;
         editedObservations := ∅; isEditing := false |}
      = Some (Throw typeError).
Proof.
  apply (delete_last_selected_breaks_chart sample_questions [governance; resilience] es
           (sample_state [sample_other; sample_form])
           {| selectedFormIndex := Some 1%nat; editedAnswers := ∅;
              editedObservations := ∅; isEditing := false |}
           1 sample_form); reflexivity.
Defined.

Lemma chart_data_of_undefined (questions : list Question)
    (categories : list Category) (lang : Language) :
  (exists c, generateChartDataAt questions categories lang None = Normal c) \/
  generateChartDataAt questions categories lang None = Throw typeError.
Proof.
  unfold generateChartDataAt. rewrite series_of_undefined.
  destruct (some_category_has_questions questions categories);
    [right; reflexivity | left; eexists; reflexivity].
Qed.

(** X15: [generateChartData] on a defined submission never throws and is
    the aggregate of the chart; on [undefined] it throws a TypeError
    exactly when some category has a question, and otherwise returns the
    labels with a series of NaN only. *)
Theorem chart_of_selection
    (questions : list Question) (categories : list Category) (lang : Language) :
  (forall f, generateChartDataAt questions categories lang (Some f)
             = Normal (generateChartData questions categories lang f)) /\
  generateChartDataAt questions categories lang None
    = if some_category_has_questions questions categories
      then Throw typeError
      else Normal
             {| labels := List.map (fun category => localized (cat_name category) lang)
                            categories;
                dataset_label := match lang with es => "Puntuación" | pt => "Pontuação" end;
                data := List.map (fun _ => JNaN) categories |}.
Proof.
  split; [intros f; apply generateChartDataAt_defined|].
  unfold generateChartDataAt. rewrite series_of_undefined.
  destruct (some_category_has_questions questions categories); reflexivity.
Qed.

(** X16: the report view renders the notice for an empty list without
    reading any submission; with the index in range it renders the chart
    and the details of the selected submission, the date line formatted by
    the host for the locale of the language; it throws for a non-empty
    list with an index past the end; with the initial index 0 it never
    throws. *)
Theorem report_render_cases
    (toLocaleDateStringIn : string -> string -> string)
    (questions : list Question) (categories : list Category) (lang : Language)
    (fd : list FormDataType) (i : nat) :
  (fd = [] ->
     reportRender toLocaleDateStringIn questions categories lang fd i = NoReportsNotice) /\
  (forall f, fd !! i = Some f ->
     reportRender toLocaleDateStringIn questions categories lang fd i
       = ReportBody (Normal (generateChartData questions categories lang f,
                             {| detail_provider := providerName f;
                                detail_entity := financialEntityName f;
                                detail_user := userName f;
                                detail_date :=
                                  toLocaleDateStringIn
                                    (match lang with es => "es-ES" | pt => "pt-BR" end)
                                    (date f) |}))) /\
  (fd <> [] -> fd !! i = None ->
     reportRender toLocaleDateStringIn questions categories lang fd i
       = ReportBody (Throw typeError)) /\
  reportRender toLocaleDateStringIn questions categories lang fd 0
    <> ReportBody (Throw typeError).
Proof.
  assert (Hin : forall n f, fd !! n = Some f ->
            reportRender toLocaleDateStringIn questions categories lang fd n
              = ReportBody (Normal (generateChartData questions categories lang f,
                                    {| detail_provider := providerName f;
                                       detail_entity := financialEntityName f;
                                       detail_user := userName f;
                                       detail_date :=
                                         toLocaleDateStringIn (locale_of lang) (date f) |}))).
  { intros n f Hn. unfold reportRender.
    destruct fd as [|g fd']; [discriminate Hn|].
    cbn [length Nat.eqb]. rewrite Hn, generateChartDataAt_defined. reflexivity. }
  split; [intros ->; reflexivity|]. split; [exact (Hin i)|]. split.
  - intros Hne Hnone. unfold reportRender.
    destruct fd as [|g fd']; [contradiction|].
    cbn [length Nat.eqb]. rewrite Hnone.
    destruct (chart_data_of_undefined questions categories lang) as [[c ->]| ->];
      reflexivity.
  - destruct fd as [|g fd'].
    + discriminate.
    + rewrite (Hin 0%nat g) by reflexivity. discriminate.
Qed.

(** ** The aggregate under edits *)

Lemma answer_sum_ext (S1 S2 : FormDataType) (C : Category) (Q : list Question) :
  (forall q, In q Q -> belongs_to C q = true -> answer_value S1 q = answer_value S2 q) ->
  answer_sum S1 C Q = answer_sum S2 C Q.
Proof.
  induction Q as [|q Q IH]; intros Hsame; [reflexivity|]. simpl.
  rewrite IH by (intros q' Hq'; apply Hsame; now right).
  destruct (belongs_to C q) eqn:E; [|reflexivity].
  rewrite (Hsame q) by (now left || exact E). reflexivity.
Qed.

Lemma answer_sum_monotone (S1 S2 : FormDataType) (C : Category) (Q : list Question) :
  (forall q, In q Q -> belongs_to C q = true -> answer_value S1 q <= answer_value S2 q) ->
  answer_sum S1 C Q <= answer_sum S2 C Q.
Proof.
  induction Q as [|q Q IH]; intros Hle; simpl; [lia|].
  assert (HQ : answer_sum S1 C Q <= answer_sum S2 C Q)
    by (apply IH; intros q' Hq'; apply Hle; now right).
  destruct (belongs_to C q) eqn:E; [|exact HQ].
  assert (answer_value S1 q <= answer_value S2 q) by (apply Hle; [now left | exact E]).
  lia.
Qed.

Lemma categoryScore_ext (S1 S2 : FormDataType) (C : Category) (Q : list Question) :
  (forall q, In q Q -> belongs_to C q = true -> answer_value S1 q = answer_value S2 q) ->
  categoryScore Q S1 C = categoryScore Q S2 C.
Proof.
  intros Hsame. rewrite !categoryScore_unfold.
  now rewrite (answer_sum_ext S1 S2 C Q Hsame).
Qed.



(** X18: an unanswered question counts like one answered with the value
    0: choosing the 0-valued option for a question that had no answer
    changes no category score. *)
Theorem zero_answer_counts_as_missing
    (Q : list Question) (C : Category) (f : FormDataType) (sf : SavedFormsState)
    (questionId : Z) :
  editedAnswers sf !! questionId = None ->
  categoryScore Q (withEdits f (handleAnswerChange questionId 0 sf)) C
    = categoryScore Q (withEdits f sf) C.
Proof.
  intros Hmissing. apply categoryScore_ext. intros q _ _.
  unfold answer_value. simpl.
  destruct (decide (questionId = id q)) as [<-|Hne].
  - now rewrite lookup_insert_eq, Hmissing.
  - now rewrite lookup_insert_ne.
Qed.

Lemma zero_answer_counts_as_missing_witness :
  categoryScore sample_questions
    (withEdits sample_other
       (handleAnswerChange 2 0
          {| selectedFormIndex := Some 0%nat; editedAnswers := answers sample_other;
             editedObservations := observations sample_other; isEditing := true |}))
    governance
  = categoryScore sample_questions
      (withEdits sample_other
         {| selectedFormIndex := Some 0%nat; editedAnswers := answers sample_other;
            editedObservations := observations sample_other; isEditing := true |})
      governance.
Proof.
  apply (zero_answer_counts_as_missing sample_questions governance sample_other).
  reflexivity.
Defined.

(** X19: the score of a category with at least one question is monotone
    in the answers: when no question of the category has a lower answer
    value in the second submission, its score is not lower either. *)
Theorem score_is_monotone
    (Q : list Question) (C : Category) (S1 S2 : FormDataType) :
  (0 < question_count C Q)%nat ->
  (forall q, In q Q -> belongs_to C q = true -> answer_value S1 q <= answer_value S2 q) ->
  exists a b,
    categoryScore Q S1 C = JNum a /\
    categoryScore Q S2 C = JNum b /\
    (a <= b)%Q.
Proof.
  intros Hn Hle.
  exists (answer_sum S1 C Q # Pos.of_nat (question_count C Q)),
         (answer_sum S2 C Q # Pos.of_nat (question_count C Q)).
  rewrite !categoryScore_unfold. unfold js_div.
  destruct (question_count C Q) as [|n] eqn:E; [lia|].
  split; [reflexivity|]. split; [reflexivity|].
  unfold Qle. simpl.
  pose proof (answer_sum_monotone S1 S2 C Q Hle). nia.
Qed.

Lemma score_is_monotone_witness :
  exists a b,
    categoryScore sample_questions sample_other governance = JNum a /\
    categoryScore sample_questions sample_form governance = JNum b /\
    (a <= b)%Q.
Proof.
  apply (score_is_monotone sample_questions governance sample_other sample_form).
  - simpl. lia.
  - intros q [<-|[<-|[]]] _; vm_compute; discriminate.
Defined.

(** ** The table rows: the positive cases *)

Lemma find_unique_value (opts : list AnswerOption) (opt : AnswerOption) :
  NoDup (List.map value opts) -> In opt opts ->
  List.find (value_is (Some (value opt))) opts = Some opt.
Proof.
  induction opts as [|o opts IH]; intros Hdistinct Hin; [destruct Hin|].
  simpl in Hdistinct. apply NoDup_cons in Hdistinct as [Hfresh Hrest].
  simpl. destruct Hin as [->|Hin].
  - now rewrite Z.eqb_refl.
  - destruct (Z.eqb_spec (value o) (value opt)) as [E|_].
    + exfalso. apply Hfresh. rewrite E.
      apply list_elem_of_In, in_map, Hin.
    + now apply IH.
Qed.

(** X20: when the option values of a question are pairwise distinct and
    the submission records the value of one of its options, the answer
    cell of the row is that option's label in the chosen language, and a
    recorded observation is the observation cell. *)
Theorem table_row_shows_selection
    (lang : Language) (selectedForm : FormDataType) (q : Question)
    (opt : AnswerOption) (note : string) :
  NoDup (List.map value (options q)) ->
  In opt (options q) ->
  answers selectedForm !! id q = Some (value opt) ->
  observations selectedForm !! id q = Some note ->
  tableRow lang selectedForm q
    = [promptCell lang selectedForm q; localized (opt_text opt) lang; note].
Proof.
  intros Hdistinct Hin Hanswer Hnote.
  unfold tableRow, answerCell, observationCell.
  rewrite Hanswer, Hnote, (find_unique_value _ _ Hdistinct Hin). reflexivity.
Qed.

Lemma table_row_shows_selection_witness :
  tableRow pt sample_form question1
    = ["Acme informa Banco Uno?"; "Sim"; "revisado"].
Proof.
  rewrite (table_row_shows_selection pt sample_form question1
             {| value := 80; opt_text := {| text_es := "Sí"; text_pt := "Sim" |} |}
             "revisado").
  - reflexivity.
  - simpl. repeat (apply NoDup_cons_2 || apply NoDup_nil_2);
      intros H; apply list_elem_of_In in H; simpl in H; intuition discriminate.
  - left; reflexivity.
  - reflexivity.
  - reflexivity.
Defined.

(** X21: a prompt that contains neither token is rendered as it is,
    whatever the provider and financial-entity names are. *)
Theorem prompt_without_tokens_unchanged
    (lang : Language) (selectedForm : FormDataType) (q : Question) :
  JsString.includes (localized (text q) lang) providerToken = false ->
  JsString.includes (localized (text q) lang) financialEntityToken = false ->
  promptCell lang selectedForm q = localized (text q) lang.
Proof.
  unfold promptCell, JsString.includes, JsString.replace. intros Hp He.
  destruct (JsString.split_at_first providerToken (localized (text q) lang))
    as [[b a]|]; [discriminate Hp|].
  destruct (JsString.split_at_first financialEntityToken (localized (text q) lang))
    as [[b a]|]; [discriminate He | reflexivity].
Qed.

Lemma prompt_without_tokens_unchanged_witness :
  promptCell es sample_stray question2 = "¿Existe un registro de incidentes?".
Proof.
  apply (prompt_without_tokens_unchanged es sample_stray question2); reflexivity.
Defined.

(** ** The double-precision aggregate *)

Example round_double_third :
  round_double (100 # 3) = JNum (4691249611844267 # 140737488355328).
Proof. vm_compute. reflexivity. Qed.

Example round_double_tenth :
  round_double (1 # 10) = JNum (3602879701896397 # 36028797018963968).
Proof. vm_compute. reflexivity. Qed.

Example js_add_beyond_53_bits :
  js_add (number_of (2 ^ 53)) (number_of 1) = number_of (2 ^ 53).
Proof. vm_compute. reflexivity. Qed.

Example round_double_overflow :
  round_double (2 ^ 1024 # 1) = JInfinity false /\
  round_double ((2 ^ 1024 - 2 ^ 970 - 1) # 1) = JNum ((2 ^ 1024 - 2 ^ 971) # 1).
Proof. split; vm_compute; reflexivity. Qed.

Section Rounding.

Lemma Qred_integer (z : Z) : Qred (z # 1) = z # 1.
Proof.
  unfold Qred. simpl.
  pose proof (Z.ggcd_gcd z 1) as Hg.
  pose proof (Z.ggcd_correct_divisors z 1) as Hd.
  destruct (Z.ggcd z 1) as [g [aa bb]]. simpl in *.
  rewrite Z.gcd_1_r in Hg. subst g. destruct Hd as [Ha Hb].
  rewrite Z.mul_1_l in Ha, Hb. subst aa bb. reflexivity.
Qed.

Lemma Qred_scaled (z c : Z) : 0 < c -> Qred (z * c # Z.to_pos c) = z # 1.
Proof.
  intros Hc. rewrite <- (Qred_integer z). apply Qred_complete.
  unfold Qeq. simpl. rewrite Z2Pos.id by exact Hc. lia.
Qed.

Lemma floor_log2_integer (a : Z) : 0 < a -> floor_log2 a 1 = Z.log2 a.
Proof.
  intros Ha. unfold floor_log2. simpl (Z.log2 1). rewrite Z.sub_0_r.
  pose proof (Z.log2_nonneg a) as Hnn.
  destruct (Z.leb_spec 0 (Z.log2 a)) as [_|]; [|lia].
  destruct (Z.log2_spec a Ha) as [Hlow _].
  destruct (Z.leb_spec (1 * 2 ^ Z.log2 a) a) as [_|]; [reflexivity | lia].
Qed.

Lemma floor_log2_upper (a : Z) (d : positive) :
  floor_log2 a d <= Z.log2 a - Z.log2 (Z.pos d).
Proof.
  unfold floor_log2.
  destruct (if 0 <=? Z.log2 a - Z.log2 (Z.pos d) then _ else _); lia.
Qed.

Lemma round_half_even_exact (m den : Z) :
  0 < den -> round_half_even (m * den) den = m.
Proof.
  intros Hden. unfold round_half_even.
  rewrite Z.div_mul, Z.mod_mul by lia.
  destruct (Z.compare_spec (2 * 0) den); [lia | reflexivity | lia].
Qed.

Lemma round_half_even_nonneg (num den : Z) :
  0 <= num -> 0 < den -> 0 <= round_half_even num den.
Proof.
  intros Hnum Hden. unfold round_half_even.
  assert (0 <= num / den) by (apply Z.div_pos; lia).
  destruct (2 * (num mod den) ?= den); [destruct (Z.even (num / den))| |]; lia.
Qed.

Lemma round_half_even_upper (num den M : Z) :
  0 < den -> num <= M * den -> round_half_even num den <= M.
Proof.
  intros Hden Hle. unfold round_half_even.
  pose proof (Z.div_mod num den ltac:(lia)) as Hdm.
  pose proof (Z.mod_pos_bound num den Hden) as Hr.
  assert (Hf : num / den <= M) by (apply Z.div_le_upper_bound; lia).
  destruct (Z.eq_dec (num / den) M) as [E|Hne].
  - assert (num mod den = 0) by nia.
    destruct (Z.compare_spec (2 * (num mod den)) den); lia.
  - destruct (2 * (num mod den) ?= den); [destruct (Z.even (num / den))| |]; lia.
Qed.

Lemma round_half_even_one (m : Z) : round_half_even m 1 = m.
Proof.
  pose proof (round_half_even_exact m 1 ltac:(lia)) as H.
  now rewrite Z.mul_1_r in H.
Qed.

(** An integer of magnitude below 2^53 is a double. *)
Lemma round_double_integer (z : Z) :
  Z.abs z < 2 ^ 53 -> round_double (z # 1) = JNum (z # 1).
Proof.
  assert (Hpos : forall a, 0 < a -> a < 2 ^ 53 ->
            round_magnitude a 1 = Some (a # 1)).
  { intros a Ha Hlt. unfold round_magnitude.
    rewrite (floor_log2_integer a Ha).
    pose proof (Z.log2_nonneg a) as Hnn.
    assert (Hlog : Z.log2 a < 53) by (apply Z.log2_lt_pow2; lia).
    rewrite Z.max_l by lia.
    destruct (Z.ltb_spec (Z.log2 a - 52) 0) as [Hk|Hk].
    - change (Z.pos 1) with 1. rewrite round_half_even_one.
      rewrite Qred_scaled; [reflexivity|].
      apply Z.pow_pos_nonneg; lia.
    - assert (Ek : Z.log2 a - 52 = 0) by lia. rewrite Ek.
      change (Z.pos 1 * 2 ^ 0) with 1. rewrite round_half_even_one.
      change (2 ^ 0) with 1. rewrite Z.mul_1_r.
      destruct (Z.leb_spec (2 ^ 1024) a) as [Hbig|_]; [|reflexivity].
      assert (2 ^ 53 < 2 ^ 1024) by (apply Z.pow_lt_mono_r; lia). lia. }
  intros Hz. unfold round_double. simpl.
  destruct z as [|a|a]; [reflexivity| |].
  - rewrite Hpos; [reflexivity | lia | lia].
  - rewrite Hpos; [reflexivity | lia | rewrite <- Pos2Z.opp_pos in Hz; lia].
Qed.

(** Rounding keeps a quotient inside [0, 100]: both ends are doubles. *)
Lemma round_double_percent (q : Q) :
  (0 <= q)%Q -> (q <= 100)%Q -> in_percent_range (round_double q).
Proof.
  destruct q as [n d]. unfold Qle; simpl. rewrite !Z.mul_1_r. intros Hn Hle.
  unfold round_double; simpl.
  destruct n as [|a|a]; [| |lia].
  - simpl. unfold Qle; simpl. lia.
  - unfold round_magnitude.
    set (e := Z.max (floor_log2 (Z.pos a) d) (-1022)).
    assert (He : e - 52 < 0).
    { pose proof (floor_log2_upper (Z.pos a) d) as Hup.
      assert (Z.log2 (Z.pos a) <= 7 + Z.log2 (Z.pos d)).
      { rewrite <- (Z.log2_mul_pow2 (Z.pos d) 7) by lia.
        apply Z.log2_le_mono. change (2 ^ 7) with 128. lia. }
      unfold e. lia. }
    destruct (Z.ltb_spec (e - 52) 0) as [_|]; [|lia].
    set (j := - (e - 52)).
    assert (Hj : 0 < 2 ^ j) by (apply Z.pow_pos_nonneg; unfold j; lia).
    simpl. rewrite Qred_correct. unfold Qle; simpl.
    rewrite !Z.mul_1_r, Z2Pos.id by exact Hj. split.
    + apply round_half_even_nonneg; nia.
    + apply round_half_even_upper; [lia | nia].
Qed.

End Rounding.

Lemma additions_exact_fold (scores : list Z) (sum : Z) :
  additions_exact sum scores ->
  fold_left (fun acc score => js_add acc (number_of score)) scores (number_of sum)
    = number_of (sum + fold_right Z.add 0 scores).
Proof.
  revert sum. induction scores as [|v scores IH]; intros sum Hexact.
  - simpl. now rewrite Z.add_0_r.
  - destruct Hexact as (_ & Hsum & Hrest). cbn [fold_left fold_right].
    assert (E : js_add (number_of sum) (number_of v) = number_of (sum + v)).
    { unfold js_add, number_of, Qplus. simpl. rewrite !Z.mul_1_r.
      now apply round_double_integer. }
    rewrite E, (IH (sum + v) Hrest). now rewrite Z.add_assoc.
Qed.

Lemma categoryScore_double_unfold (S : FormDataType) (C : Category) (Q : list Question) :
  (0 < question_count C Q)%nat ->
  additions_exact 0 (categoryScores S (categoryQuestions Q C)) ->
  categoryScore_double Q S C
    = round_double (answer_sum S C Q # Pos.of_nat (question_count C Q)).
Proof.
  intros Hn Hexact. unfold categoryScore_double, average_double.
  rewrite (additions_exact_fold _ 0 Hexact), categoryScores_sum,
    categoryScores_length, Z.add_0_l.
  unfold js_quot, number_of.
  destruct (question_count C Q); [lia | reflexivity].
Qed.

(** C1 (amended): for a category with n > 0 questions in the question
    list, when the answer values added and their running sums are integers
    of magnitude below 2^53 (no addition rounds), the aggregated score is
    the double nearest to the sum over the category's questions of the
    submission's answer value (0 when the question id is absent) divided
    by n; it lies in [0, 100] whenever every option value lies in [0, 100]
    and every answer the submission records for a question of the list is
    the value of one of that question's options. *)
Theorem category_score_is_rounded_mean
    (S : FormDataType) (Q : list Question) (C : Category) :
  (0 < question_count C Q)%nat ->
  additions_exact 0 (categoryScores S (categoryQuestions Q C)) ->
  categoryScore_double Q S C
    = round_double (answer_sum S C Q # Pos.of_nat (question_count C Q)) /\
  (option_values_in_range Q -> answers_are_option_values S Q ->
     in_percent_range (categoryScore_double Q S C)).
Proof.
  intros Hn Hexact.
  pose proof (categoryScore_double_unfold S C Q Hn Hexact) as E.
  split; [exact E|].
  intros Hrange Hwf. rewrite E.
  assert (Hsum : 0 <= answer_sum S C Q <= 100 * Z.of_nat (question_count C Q)).
  { apply answer_sum_bounds. intros q Hq. now apply (answer_value_bounds S Q q). }
  apply round_double_percent; unfold Qle; simpl;
    rewrite (Zpos_of_nat _ Hn); lia.
Qed.

Lemma category_score_is_rounded_mean_witness :
  categoryScore_double sample_questions sample_form governance = JNum (60 # 1) /\
  in_percent_range (categoryScore_double sample_questions sample_form governance).
Proof.
  destruct (category_score_is_rounded_mean sample_form sample_questions governance)
    as [Hmean Hrange].
  - simpl. lia.
  - vm_compute. repeat split.
  - split.
    + rewrite Hmean. vm_compute. reflexivity.
    + apply Hrange.
      * exact sample_option_values_in_range.
      * exact sample_answers_are_option_values.
Defined.

(** C1 as the specification words it fails: with every option value in
    [0, 100], a submission that records 500 for question 1 (no option of
    that question) has the score 250 in the category of two questions. *)
Lemma score_out_of_range_counterexample :
  option_values_in_range sample_questions /\
  categoryScore_double sample_questions sample_excess governance = JNum (250 # 1) /\
  categoryScore sample_questions sample_excess governance = JNum (500 # 2) /\
  ~ bound_clause_as_specified sample_questions sample_excess governance.
Proof.
  split; [exact sample_option_values_in_range|].
  split; [vm_compute; reflexivity|]. split; [reflexivity|].
  intros Hclaim. specialize (Hclaim sample_option_values_in_range).
  vm_compute in Hclaim. destruct Hclaim as [_ Hle]. apply Hle. reflexivity.
Qed.

(** The quotient is rounded: 80 over three questions is not the exact
    80/3 but the double next to it, 26.666666666666668. *)
Example mean_is_rounded :
  average_double [80; 0; 0] = JNum (7505999378950827 # 281474976710656) /\
  ~ (7505999378950827 # 281474976710656 == 80 # 3)%Q.
Proof. split; [vm_compute; reflexivity | discriminate]. Qed.

(** The two readings of the aggregate agree: without rounding in the
    additions the double-precision score is the rounding of the exact
    mean, and for a category without questions both are NaN. *)
Lemma double_score_rounds_exact_mean
    (S : FormDataType) (questions : list Question) (C : Category) (q : Q) :
  (0 < question_count C questions)%nat ->
  additions_exact 0 (categoryScores S (categoryQuestions questions C)) ->
  categoryScore questions S C = JNum q ->
  categoryScore_double questions S C = round_double q.
Proof.
  intros Hn Hexact Hq.
  rewrite (categoryScore_double_unfold S C questions Hn Hexact).
  rewrite categoryScore_unfold in Hq. unfold js_div in Hq.
  destruct (question_count C questions); [lia|]. now injection Hq as <-.
Qed.

Lemma double_score_of_empty_category
    (S : FormDataType) (Q : list Question) (C : Category) :
  categoryQuestions Q C = [] ->
  categoryScore_double Q S C = JNaN /\ categoryScore Q S C = JNaN.
Proof.
  intros Hnone. unfold categoryScore_double, categoryScore.
  rewrite Hnone. split; reflexivity.
Qed.
